(** * OCRCapturText: capture, scaling, OCR and clipboard pipeline

    A shallow embedding of [version/OCRCapturText_V1.1.py] (and, where the
    two revisions differ, of [version/OCRCapturText_V1.0.py]) together with
    the properties of the capture-and-process pipeline.

    Python objects become records, [None] becomes [option], exceptions
    become the [Raise] constructor of [result], and every call into a
    collaborator the program does not own (the screen grabber, the OCR
    engine, the clipboard, the file system) is a field of an environment
    record, so that a statement quantified over the environment holds for
    every behaviour of that collaborator. *)

From Stdlib Require Import ZArith QArith Qround Qpower Qabs Qminmax Lqa.
From Stdlib Require Import List String Ascii Bool Lia SpecFloat.
Import ListNotations.
Local Open Scope Z_scope.

(* ===================================================================== *)
(** * Part I. Definitions                                                 *)
(* ===================================================================== *)

(** ** Exceptions *)

(** The handlers of the program distinguish one exception class,
    [pytesseract.pytesseract.TesseractNotFoundError], from everything else
    caught by [except Exception as e]. *)
Inductive exn : Type :=
| TesseractNotFoundError
| Exception (msg : string).

Inductive result (A : Type) : Type :=
| Ok (a : A)
| Raise (e : exn).
Arguments Ok {A} a.
Arguments Raise {A} e.

(** [str(e)]. *)
Definition str (e : exn) : string :=
  match e with
  | TesseractNotFoundError => "tesseract is not installed or it's not in your PATH"
  | Exception msg => msg
  end.

(** ** PIL images *)

Module Pillow.

Inductive mode : Type := RGB | RGBA | L.

(** An image is a bitmap delivered by the screen grabber, or the value of
    one of the three [Image] methods the program calls on it.  Each
    method returns a new object and leaves its receiver untouched, which
    is why they are constructors: the receiver stays readable inside the
    result. *)
Inductive image : Type :=
| Bitmap (content : nat) (m : mode) (sz : Z * Z)
| copy (i : image)
| convert (m : mode) (i : image)
| resize (sz : Z * Z) (i : image).

(** [Image.size], a [(width, height)] pair. *)
Fixpoint size (i : image) : Z * Z :=
  match i with
  | Bitmap _ _ sz => sz
  | copy j => size j
  | convert _ j => size j
  | resize sz _ => sz
  end.

(** [Image.mode]. *)
Fixpoint mode_of (i : image) : mode :=
  match i with
  | Bitmap _ m _ => m
  | copy j => mode_of j
  | convert m _ => m
  | resize _ j => mode_of j
  end.

(** The bitmap an image was derived from. *)
Fixpoint content_of (i : image) : nat :=
  match i with
  | Bitmap c _ _ => c
  | copy j | convert _ j | resize _ j => content_of j
  end.

Definition mode_eqb (a b : mode) : bool :=
  match a, b with
  | RGB, RGB | RGBA, RGBA | L, L => true
  | _, _ => false
  end.

End Pillow.
Export Pillow.

(** ** ScreenCapturer *)

Module ScreenCapturer.

(** A screen region as [pyautogui.screenshot(region=...)] takes it:
    [(left, top, width, height)]. *)
Definition region : Type := (Z * Z * Z * Z)%type.

(** What the release handler does to the outside world, in order. *)
Inductive effect : Type :=
| Withdraw                          (* selection_window.withdraw() *)
| UpdateIdletasks                   (* selection_window.update_idletasks() *)
| Sleep (ms : Z)                    (* time.sleep *)
| Screenshot (r : region)           (* pyautogui.screenshot(region=r) *)
| Print (msg : string)
| Destroy                           (* selection_window.destroy() *)
| Callback (captured : option image).

Record t : Type := mk {
  start_x : Z;
  start_y : Z;
  captured_image : option image
}.

(** [on_button_press]: the anchor is the pointer's root coordinates. *)
Definition on_button_press (self : t) (x_root y_root : Z) : t :=
  {| start_x := x_root; start_y := y_root;
     captured_image := captured_image self |}.

(** Lines 258-261 and 267-268 of V1.1 (277-280 and the argument of
    [screenshot] in V1.0): the corner and extent handed to the grabber. *)
Definition selection_rectangle (self : t) (end_x end_y : Z) : region :=
  let x1 := Z.min (start_x self) end_x in
  let y1 := Z.min (start_y self) end_y in
  let x2 := Z.max (start_x self) end_x in
  let y2 := Z.max (start_y self) end_y in
  (x1, y1, x2 - x1, y2 - y1).

Section Release.
(** [pyautogui.screenshot]: what is on the screen is not the program's
    to decide, and the call may raise. *)
Variable screenshot : region -> result image.

(** V1.1, [on_button_release].  The [try] catches every exception of
    the grab; [finally] destroys the overlay; the callback runs last. *)
Definition on_button_release (self : t) (end_x end_y : Z)
  : t * list effect :=
  let '(x1, y1, width, height) := selection_rectangle self end_x end_y in
  let '(captured, tried) :=
    if (0 <? width) && (0 <? height) then
      match screenshot (x1, y1, width, height) with
      | Ok img => (Some img, [Screenshot (x1, y1, width, height)])
      | Raise e =>
          (None, [Screenshot (x1, y1, width, height);
                  Print ("Error during screenshot: " ++ str e)])
      end
    else (None, [])
  in
  ({| start_x := start_x self; start_y := start_y self;
      captured_image := captured |},
   [Withdraw] ++ tried ++ [Destroy; Callback captured]).

(** V1.0, [on_button_release]: no test on the extent and no handler, so
    the grab is always attempted and an exception leaves the handler
    before the overlay is destroyed or the callback runs. *)
Definition on_button_release_V1_0 (self : t) (end_x end_y : Z)
  : result t * list effect :=
  let r := selection_rectangle self end_x end_y in
  let before := [Withdraw; UpdateIdletasks; Sleep 100; Screenshot r] in
  match screenshot r with
  | Ok img =>
      (Ok {| start_x := start_x self; start_y := start_y self;
             captured_image := Some img |},
       before ++ [Destroy; Callback (Some img)])
  | Raise e => (Raise e, before)
  end.
End Release.

(** The arguments the completion callback was called with. *)
Fixpoint callbacks (tr : list effect) : list (option image) :=
  match tr with
  | [] => []
  | Callback c :: tr' => c :: callbacks tr'
  | _ :: tr' => callbacks tr'
  end.

(** [on_mouse_drag]: the corners given to [canvas.coords], in canvas
    coordinates.  [rootx], [rooty] are the overlay's
    [winfo_rootx()], [winfo_rooty()]; [x], [y] are [event.x], [event.y]. *)
Definition on_mouse_drag (self : t) (rootx rooty x y : Z) : Z * Z * Z * Z :=
  let current_x := x in
  let current_y := y in
  (start_x self - rootx, start_y self - rooty, current_x, current_y).

(** The screen region a canvas rectangle with these corners covers. *)
Definition covered (rootx rooty : Z) (c : Z * Z * Z * Z) : region :=
  let '(x0, y0, x1, y1) := c in
  (Z.min x0 x1 + rootx, Z.min y0 y1 + rooty, Z.abs (x0 - x1), Z.abs (y0 - y1)).

(** The effects that end a selection. *)
Definition is_callback (e : effect) : bool :=
  match e with Callback _ => true | _ => false end.

Definition is_destroy (e : effect) : bool :=
  match e with Destroy => true | _ => false end.

End ScreenCapturer.

(** ** Effects: state and exceptions *)

(** A method body is a function from the state it can touch to an outcome
    (a value or a raised exception) and the state it leaves behind.  The
    state survives a raise: what a body assigned before the exception
    stays assigned, as in Python. *)
Definition M (S A : Type) : Type := S -> result A * S.

Definition ret {S A} (a : A) : M S A := fun s => (Ok a, s).

Definition bind {S A B} (c : M S A) (k : A -> M S B) : M S B :=
  fun s =>
    match c s with
    | (Ok a, s') => k a s'
    | (Raise e, s') => (Raise e, s')
    end.

Definition raise {S A} (e : exn) : M S A := fun s => (Raise e, s).
Definition get {S} : M S S := fun s => (Ok s, s).
Definition modify {S} (f : S -> S) : M S unit := fun s => (Ok tt, f s).

(** [try: c  except Exception as e: h e]. *)
Definition try_except {S A} (c : M S A) (h : exn -> M S A) : M S A :=
  fun s =>
    match c s with
    | (Ok a, s') => (Ok a, s')
    | (Raise e, s') => h e s'
    end.

(** [try: c  finally: f]: [f] runs on every way out of [c]; the outcome
    is that of [c] unless [f] itself raises. *)
Definition try_finally {S A} (c : M S A) (f : M S unit) : M S A :=
  fun s =>
    match c s with
    | (r, s') =>
        match f s' with
        | (Ok _, s'') => (r, s'')
        | (Raise e, s'') => (Raise e, s'')
        end
    end.

Declare Scope monad_scope.
Delimit Scope monad_scope with monad.
Notation "x <- c ;; k" := (bind c (fun x => k))
  (at level 61, c at next level, right associativity) : monad_scope.
Notation "c ;; k" := (bind c (fun _ => k))
  (at level 61, right associativity) : monad_scope.

(** ** The pytesseract module *)

Module pytesseract.

(** One run of the engine executable. *)
Record invocation : Type := mk_invocation {
  inv_cmd : string;
  inv_image : image;
  inv_lang : string;
  inv_config : string
}.

(** Module state: the global [pytesseract.pytesseract.tesseract_cmd],
    and the runs made so far. *)
Record t : Type := mk {
  tesseract_cmd : string;
  invocations : list invocation
}.

(** The executable found at a command path.  Its answers are outside the
    program; a missing executable answers [Raise TesseractNotFoundError]. *)
Record engine : Type := mk_engine {
  run_version : string -> result string;
  run_ocr : string -> image -> string -> string -> result string
}.

Definition set_tesseract_cmd (path : string) : M t unit :=
  modify (fun g => {| tesseract_cmd := path; invocations := invocations g |}).

Definition get_tesseract_version (E : engine) : M t string :=
  fun g => (run_version E (tesseract_cmd g), g).

Definition image_to_string (E : engine) (img : image) (lang config : string)
  : M t string :=
  fun g =>
    (run_ocr E (tesseract_cmd g) img lang config,
     {| tesseract_cmd := tesseract_cmd g;
        invocations :=
          invocations g ++
          [{| inv_cmd := tesseract_cmd g; inv_image := img;
              inv_lang := lang; inv_config := config |}] |}).

End pytesseract.

(** ** The engine's command line

    What [--oem] and [--psm] select is fixed by the OCR engine, not by
    this program.  The two tables below are Tesseract's own (the
    [OcrEngineMode] and [PageSegMode] enumerations of its API, printed by
    [tesseract --help-oem] and [tesseract --help-psm]):
    - oem 0 legacy engine only, 1 neural nets LSTM engine only,
      2 legacy + LSTM engines, 3 default, based on what is available;
    - psm 6 "assume a single uniform block of text". *)

Module Tesseract.

Inductive OcrEngineMode : Type :=
| OEM_TESSERACT_ONLY
| OEM_LSTM_ONLY
| OEM_TESSERACT_LSTM_COMBINED
| OEM_DEFAULT.

Inductive PageSegMode : Type :=
| PSM_OSD_ONLY | PSM_AUTO_OSD | PSM_AUTO_ONLY | PSM_AUTO
| PSM_SINGLE_COLUMN | PSM_SINGLE_BLOCK_VERT_TEXT | PSM_SINGLE_BLOCK
| PSM_SINGLE_LINE | PSM_SINGLE_WORD | PSM_CIRCLE_WORD | PSM_SINGLE_CHAR
| PSM_SPARSE_TEXT | PSM_SPARSE_TEXT_OSD | PSM_RAW_LINE.

Definition oem_of_arg (a : string) : option OcrEngineMode :=
  if String.eqb a "0" then Some OEM_TESSERACT_ONLY
  else if String.eqb a "1" then Some OEM_LSTM_ONLY
  else if String.eqb a "2" then Some OEM_TESSERACT_LSTM_COMBINED
  else if String.eqb a "3" then Some OEM_DEFAULT
  else None.

Definition psm_of_arg (a : string) : option PageSegMode :=
  if String.eqb a "0" then Some PSM_OSD_ONLY
  else if String.eqb a "1" then Some PSM_AUTO_OSD
  else if String.eqb a "2" then Some PSM_AUTO_ONLY
  else if String.eqb a "3" then Some PSM_AUTO
  else if String.eqb a "4" then Some PSM_SINGLE_COLUMN
  else if String.eqb a "5" then Some PSM_SINGLE_BLOCK_VERT_TEXT
  else if String.eqb a "6" then Some PSM_SINGLE_BLOCK
  else if String.eqb a "7" then Some PSM_SINGLE_LINE
  else if String.eqb a "8" then Some PSM_SINGLE_WORD
  else if String.eqb a "9" then Some PSM_CIRCLE_WORD
  else if String.eqb a "10" then Some PSM_SINGLE_CHAR
  else if String.eqb a "11" then Some PSM_SPARSE_TEXT
  else if String.eqb a "12" then Some PSM_SPARSE_TEXT_OSD
  else if String.eqb a "13" then Some PSM_RAW_LINE
  else None.

(** [shlex.split] on a string of plain words: cut at spaces. *)
Fixpoint words_from (acc : string) (s : string) : list string :=
  match s with
  | EmptyString => if String.eqb acc "" then [] else [acc]
  | String c s' =>
      if Ascii.eqb c " "%char
      then (if String.eqb acc "" then [] else [acc]) ++ words_from "" s'
      else words_from (acc ++ String c EmptyString) s'
  end.
Definition words (s : string) : list string := words_from "" s.

(** The argument following a flag. *)
Fixpoint arg_of (flag : string) (ws : list string) : option string :=
  match ws with
  | f :: ((a :: _) as rest) =>
      if String.eqb f flag then Some a else arg_of flag rest
  | _ => None
  end.

Definition engine_mode (config : string) : option OcrEngineMode :=
  match arg_of "--oem" (words config) with
  | Some a => oem_of_arg a
  | None => None
  end.

Definition page_seg_mode (config : string) : option PageSegMode :=
  match arg_of "--psm" (words config) with
  | Some a => psm_of_arg a
  | None => None
  end.

End Tesseract.

(** ** OCRProcessor *)

Module OCRProcessor.
Import pytesseract.
Local Open Scope monad_scope.

Record t : Type := mk { language : string }.

(** [__init__(self, language='tur', tesseract_path=None)]: a truthy path
    overwrites the module-global command. *)
Definition init (language : string) (tesseract_path : option string)
  : M pytesseract.t t :=
  match tesseract_path with
  | Some p =>
      if String.eqb p "" then ret (mk language)
      else set_tesseract_cmd p ;; ret (mk language)
  | None => ret (mk language)
  end.

Definition tesseract_config : string := "--oem 1 --psm 6".

(** [extract_text(self, image)].  In [perform_ocr] the argument is
    [self.captured_image], which may be [None]; [None.convert] raises
    [AttributeError]. *)
Definition extract_text (E : engine) (self : t) (image : option image)
  : M pytesseract.t string :=
  match image with
  | None =>
      raise (Exception "'NoneType' object has no attribute 'convert'")
  | Some img =>
      let gray := convert L img in
      text <- image_to_string E gray (language self) tesseract_config ;;
      ret text
  end.

End OCRProcessor.

(** ** ConfigurationDialog *)

Module ConfigurationDialog.
Import pytesseract.
Local Open Scope monad_scope.

Inductive color : Type := red | green.

(** The dialog's entry variable and validation label, and the pytesseract
    module whose global it borrows. *)
Record t : Type := mk {
  tesseract_path_var : string;
  validation_label : option (string * color * list string);
  tess : pytesseract.t
}.

Record os : Type := mk_os { path_exists : string -> bool }.

(** [_update_validation_label(message_key, color, *format_args)]. *)
Definition _update_validation_label (key : string) (c : color)
           (args : list string) : M t unit :=
  modify (fun d => {| tesseract_path_var := tesseract_path_var d;
                      validation_label := Some (key, c, args);
                      tess := tess d |}).

(** Run a pytesseract action on the module state held by the dialog. *)
Definition in_tess {A} (c : M pytesseract.t A) : M t A :=
  fun d =>
    match c (tess d) with
    | (r, g) => (r, {| tesseract_path_var := tesseract_path_var d;
                       validation_label := validation_label d;
                       tess := g |})
    end.

Section Validate.
Variable O : os.
Variable E : engine.

(** V1.1, [validate_tesseract_path]. *)
Definition validate_tesseract_path : M t bool :=
  d <- get ;;
  let path := tesseract_path_var d in
  if String.eqb path "" then
    _update_validation_label "config_no_path" red [] ;; ret false
  else if negb (path_exists O path) then
    _update_validation_label "config_invalid_path" red [] ;; ret false
  else
    let original_path := tesseract_cmd (tess d) in
    try_finally
      (try_except
         (in_tess (set_tesseract_cmd path) ;;
          version <- in_tess (get_tesseract_version E) ;;
          _update_validation_label "config_validation_success" green [version] ;;
          ret true)
         (fun e =>
            _update_validation_label "config_validation_error" red [str e] ;;
            ret false))
      (in_tess (set_tesseract_cmd original_path)).

End Validate.

End ConfigurationDialog.

(** ** Python floats

    [resize_image] divides two [int]s with [/] and multiplies an [int] by
    the quotient, so its result is decided by binary64 rounding: in Python
    [int(2599 * (453 / 2599))] is 452, not 453.

    A finite float is the rational it denotes.  Every operation computes
    the exact rational result and rounds it to the nearest number with a
    53-bit significand, ties to even (IEEE 754 binary64, which is what
    CPython's [float] is).  The exponent is left unbounded: quotients and
    products of image sizes stay far inside binary64's normal range, where
    overflow, underflow and subnormals do not occur. *)

Module PyFloat.
Local Open Scope Q_scope.

Definition float : Type := Q.

Definition pow2 (e : Z) : Q := 2 ^ e.

(** [ilog2 x] is the [e] with [2^e <= x < 2^(e+1)], for [x > 0]. *)
Definition ilog2 (x : Q) : Z :=
  let c := (Z.log2 (Qnum x) - Z.log2 (Zpos (Qden x)))%Z in
  if Qle_bool (pow2 c) x then c else (c - 1)%Z.

(** Nearest integer, ties to the even one. *)
Definition round_half_even (y : Q) : Z :=
  let f := Qfloor y in
  match Qcompare (y - inject_Z f) (1 # 2) with
  | Lt => f
  | Gt => (f + 1)%Z
  | Eq => if Z.even f then f else (f + 1)%Z
  end.

(** Rounding of a positive rational: scale it so that its integer part
    has exactly 53 bits, round that to an integer, scale back. *)
Definition rnd_pos (x : Q) : Q :=
  let e := (ilog2 x - 52)%Z in
  inject_Z (round_half_even (x / pow2 e)) * pow2 e.

Definition rnd (x : Q) : float :=
  match Qcompare x 0 with
  | Eq => 0
  | Gt => rnd_pos x
  | Lt => - rnd_pos (- x)
  end.

(** [float(n)], the conversion [int * float] applies to its left
    operand. *)
Definition float_of_int (n : Z) : float := rnd (inject_Z n).

(** [a / b] on two [int]s: the correctly rounded quotient, or
    [ZeroDivisionError]. *)
Definition truediv (a b : Z) : result float :=
  if (b =? 0)%Z then Raise (Exception "division by zero")
  else Ok (rnd (inject_Z a / inject_Z b)).

(** [n * x] with [n] an [int] and [x] a [float]. *)
Definition mul_int (n : Z) (x : float) : float := rnd (float_of_int n * x).

(** The builtin [min(a, b)]: [b] when [b < a], else [a]. *)
Definition min (a b : float) : float :=
  match Qcompare b a with Lt => b | _ => a end.

(** [int(x)]: truncation toward zero. *)
Definition int (x : float) : Z := Z.quot (Qnum x) (Zpos (Qden x)).

(** The unit roundoff of binary64, [2^-53]. *)
Definition u : Q := 1 # 9007199254740992.

(** *** The reference

    The same three operations on the Standard Library's executable
    specification of binary64 ([SpecFloat], precision 53, [emax] 1024),
    for comparison with the definitions above. *)
Definition b64_of_int (n : Z) : spec_float :=
  binary_normalize 53 1024 n 0 false.

Definition value (f : spec_float) : option Q :=
  match f with
  | S754_zero _ => Some 0
  | S754_finite s m e =>
      Some ((if s then -1 else 1) * inject_Z (Zpos m) * pow2 e)
  | _ => None
  end.

Definition b64_truediv (a b : Z) : option Q :=
  value (SFdiv 53 1024 (b64_of_int a) (b64_of_int b)).

Definition b64_scale (n a b : Z) : option Q :=
  value (SFmul 53 1024 (b64_of_int n)
           (SFdiv 53 1024 (b64_of_int a) (b64_of_int b))).

Definition same (r : option Q) (x : result float) : bool :=
  match r, x with
  | Some q, Ok y => Qeq_bool q y
  | _, _ => false
  end.

(** For source extent [n] and viewport extent [a], both ways of
    computing [a / n] and [n * (a / n)] agree. *)
Definition agree_at (n a : Z) : bool :=
  same (b64_truediv a n) (truediv a n)
  && match truediv a n with
     | Ok r => same (b64_scale n a n) (Ok (mul_int n r))
     | Raise _ => false
     end.

Definition agree_on_grid (ns viewports : list Z) : bool :=
  forallb (fun n => forallb (agree_at n) viewports) ns.

End PyFloat.

(** ** MainApplication *)

Module MainApplication.
Local Open Scope monad_scope.

Inductive button_state : Type := disabled | normal.

(** What [self.executor.submit] is given.  Only the display job carries
    an argument; the two user jobs are the bound methods
    [self.copy_image_to_clipboard] and [self.perform_ocr]. *)
Inductive job : Type :=
| JobDisplay (image : image)    (* self.display_captured_image, image *)
| JobCopyImage                  (* self.copy_image_to_clipboard *)
| JobOcr.                       (* self.perform_ocr *)

(** What [self.root.after] is given. *)
Inductive callback : Type :=
| CbDebounced                   (* self.debounced_resize_and_update_image *)
| CbUpdateLabel.                (* self._update_image_label *)

Record timer : Type := mk_timer {
  timer_id : nat;
  due : Z;
  fn : callback
}.

Inductive clip : Type :=
| ClipEmpty
| ClipText (text : string)
| ClipDIB (img : image).

Inductive msg_func : Type := showinfo | showwarning | showerror.

Record message : Type := mk_message {
  msg_kind : msg_func;
  title_key : string;
  message_key : string;
  format_args : list string
}.

(** The application object, the widgets and Tk timers it reads and
    writes, its executor's queue, and the three things outside the
    process its jobs change: pytesseract's module state, the clipboard
    and the message boxes shown. *)
Record t : Type := mk {
  captured_image : option image;
  tk_image : option image;          (* the image the PhotoImage wraps *)
  original_image : option image;
  resize_job : option nat;
  language_var : string;
  language_options : list (string * string);
  config_tesseract_path : option string;
  label_size : Z * Z;               (* image_label.winfo_width/height *)
  label_image : option image;       (* image_label's image option *)
  image_button : button_state;
  text_button : button_state;
  now : Z;                          (* Tk's clock, milliseconds *)
  timers : list timer;              (* pending after-callbacks *)
  next_after_id : nat;
  pending : list job;               (* submitted, not yet started *)
  tess : pytesseract.t;
  clipboard : clip;
  messages : list message
}.

Definition set_captured_image v s :=
  let '(mk _ b c d e f g h i j k l m n o p q r) := s in
  mk v b c d e f g h i j k l m n o p q r.
Definition set_tk_image v s :=
  let '(mk a _ c d e f g h i j k l m n o p q r) := s in
  mk a v c d e f g h i j k l m n o p q r.
Definition set_original_image v s :=
  let '(mk a b _ d e f g h i j k l m n o p q r) := s in
  mk a b v d e f g h i j k l m n o p q r.
Definition set_resize_job v s :=
  let '(mk a b c _ e f g h i j k l m n o p q r) := s in
  mk a b c v e f g h i j k l m n o p q r.
Definition set_label_size v s :=
  let '(mk a b c d e f g _ i j k l m n o p q r) := s in
  mk a b c d e f g v i j k l m n o p q r.
Definition set_label_image v s :=
  let '(mk a b c d e f g h _ j k l m n o p q r) := s in
  mk a b c d e f g h v j k l m n o p q r.
Definition set_image_button v s :=
  let '(mk a b c d e f g h i _ k l m n o p q r) := s in
  mk a b c d e f g h i v k l m n o p q r.
Definition set_text_button v s :=
  let '(mk a b c d e f g h i j _ l m n o p q r) := s in
  mk a b c d e f g h i j v l m n o p q r.
Definition set_now v s :=
  let '(mk a b c d e f g h i j k _ m n o p q r) := s in
  mk a b c d e f g h i j k v m n o p q r.
Definition set_timers v s :=
  let '(mk a b c d e f g h i j k l _ n o p q r) := s in
  mk a b c d e f g h i j k l v n o p q r.
Definition set_next_after_id v s :=
  let '(mk a b c d e f g h i j k l m _ o p q r) := s in
  mk a b c d e f g h i j k l m v o p q r.
Definition set_pending v s :=
  let '(mk a b c d e f g h i j k l m n _ p q r) := s in
  mk a b c d e f g h i j k l m n v p q r.
Definition set_tess v s :=
  let '(mk a b c d e f g h i j k l m n o _ q r) := s in
  mk a b c d e f g h i j k l m n o v q r.
Definition set_clipboard v s :=
  let '(mk a b c d e f g h i j k l m n o p _ r) := s in
  mk a b c d e f g h i j k l m n o p v r.
Definition set_messages v s :=
  let '(mk a b c d e f g h i j k l m n o p q _) := s in
  mk a b c d e f g h i j k l m n o p q v.

(** The platform and the collaborators of the two user jobs. *)
Record env : Type := mk_env {
  os_name : string;
  engine : pytesseract.engine;
  (* image.save(output, 'BMP') and the four win32clipboard calls *)
  put_dib : image -> result unit;
  pyperclip_copy : string -> result unit
}.

Definition lift {A} (r : result A) : M t A := fun s => (r, s).

(** [_show_message_from_ui_texts(msg_func, title_key, message_key, *args)]. *)
Definition _show_message_from_ui_texts (k : msg_func) (title key : string)
           (args : list string) : M t unit :=
  modify (fun s =>
    set_messages (messages s ++
      [{| msg_kind := k; title_key := title; message_key := key;
          format_args := args |}]) s).

(** *** Tk timers and the executor *)

(** [root.after(ms, fn)]: a fresh identifier, due [ms] from now. *)
Definition after (ms : Z) (f : callback) : M t nat :=
  fun s =>
    let id := next_after_id s in
    (Ok id,
     set_next_after_id (S id)
       (set_timers (timers s ++
          [{| timer_id := id; due := now s + ms; fn := f |}]) s)).

(** The timers other than [id]. *)
Definition not_id (id : nat) (tm : timer) : bool :=
  negb (Nat.eqb (timer_id tm) id).

(** [root.after_cancel(id)]. *)
Definition after_cancel (id : nat) : M t unit :=
  modify (fun s => set_timers (filter (not_id id) (timers s)) s).

(** [executor.submit(job)]. *)
Definition submit (j : job) : M t unit :=
  modify (fun s => set_pending (pending s ++ [j]) s).

(** *** Scaling for display *)

(** An extent in pixels that a screen or a window can have; the bound is
    far above any display and keeps every quotient and product of two
    extents exactly representable where the proofs need it. *)
Definition dimension (n : Z) : Prop := 0 < n < 2 ^ 25.

(** Lines 611-618: the size handed to [Image.resize]. *)
Definition scaled_size (original label : Z * Z) : result (Z * Z) :=
  let '(original_width, original_height) := original in
  let '(label_width, label_height) := label in
  match PyFloat.truediv label_width original_width with
  | Raise e => Raise e
  | Ok width_ratio =>
      match PyFloat.truediv label_height original_height with
      | Raise e => Raise e
      | Ok height_ratio =>
          let scale_factor := PyFloat.min width_ratio height_ratio in
          let new_width := PyFloat.int (PyFloat.mul_int original_width scale_factor) in
          let new_height := PyFloat.int (PyFloat.mul_int original_height scale_factor) in
          let new_width := Z.max 1 new_width in
          let new_height := Z.max 1 new_height in
          Ok (new_width, new_height)
      end
  end.

(** V1.1, [resize_image]. *)
Definition resize_image : M t unit :=
  self <- get ;;
  match original_image self with
  | None => ret tt
  | Some original =>
      let '(label_width, label_height) := label_size self in
      if (label_width <=? 1) || (label_height <=? 1) then ret tt
      else
        let '(original_width, original_height) := size original in
        resized_image <-
          (if (original_width <=? label_width)
              && (original_height <=? label_height)
           then ret original
           else
             new_size <- lift (scaled_size (size original) (label_size self)) ;;
             ret (resize new_size original)) ;;
        modify (set_tk_image (Some resized_image))
  end.

(** V1.0 computes the same factor but resizes without the floor of one
    pixel (lines 613-622). *)
Definition scaled_size_V1_0 (original label : Z * Z) : result (option (Z * Z)) :=
  let '(original_width, original_height) := original in
  let '(label_width, label_height) := label in
  match PyFloat.truediv label_width original_width with
  | Raise e => Raise e
  | Ok width_ratio =>
      match PyFloat.truediv label_height original_height with
      | Raise e => Raise e
      | Ok height_ratio =>
          let scale_factor := PyFloat.min width_ratio height_ratio in
          match Qcompare scale_factor 1 with
          | Lt =>
              let new_width := PyFloat.int (PyFloat.mul_int original_width scale_factor) in
              let new_height := PyFloat.int (PyFloat.mul_int original_height scale_factor) in
              Ok (Some (new_width, new_height))
          | _ => Ok None
          end
      end
  end.

Definition _update_image_label : M t unit :=
  modify (fun s => set_label_image (tk_image s) s).

(** [resize_and_update_image]. *)
Definition resize_and_update_image : M t unit :=
  resize_image ;;
  self <- get ;;
  match tk_image self with
  | Some _ => after 0 CbUpdateLabel ;; ret tt
  | None => ret tt
  end.

(** [debounced_resize_and_update_image]. *)
Definition debounced_resize_and_update_image : M t unit :=
  resize_and_update_image ;;
  modify (set_resize_job None).

(** [on_window_resize(event)]; the event itself is never read. *)
Definition on_window_resize : M t unit :=
  self <- get ;;
  match original_image self with
  | Some _ =>
      (match resize_job self with
       | Some id => after_cancel id
       | None => ret tt
       end) ;;
      id <- after 100 CbDebounced ;;
      modify (set_resize_job (Some id))
  | None => ret tt
  end.

(** *** Capture arrival and the two buttons *)

(** [process_captured_image(captured_image)], the completion callback of
    the capture. *)
Definition process_captured_image (captured : option image) : M t unit :=
  match captured with
  | Some img =>
      modify (set_captured_image (Some img)) ;;
      modify (set_original_image (Some (copy img))) ;;
      submit (JobDisplay img) ;;
      modify (set_image_button normal) ;;
      modify (set_text_button normal)
  | None =>
      _show_message_from_ui_texts showwarning "warning_title"
        "warning_screenshot_failed" []
  end.

(** The decorator [require_capture]. *)
Definition require_capture (func : M t unit) : M t unit :=
  self <- get ;;
  match captured_image self with
  | Some _ => func
  | None =>
      _show_message_from_ui_texts showwarning "warning_title"
        "warning_no_screenshot" []
  end.

Definition on_image_button : M t unit :=
  require_capture (submit JobCopyImage).

Definition on_text_button : M t unit :=
  require_capture (submit JobOcr).

(** *** The jobs *)

(** [display_captured_image(image)]; the argument is never read. *)
Definition display_captured_image (image : image) : M t unit :=
  resize_image ;;
  after 0 CbUpdateLabel ;;
  ret tt.

Definition in_tess {A} (c : M pytesseract.t A) : M t A :=
  fun s => match c (tess s) with (r, g) => (r, set_tess g s) end.

Section Jobs.
Variable W : env.

(** V1.1, [copy_image_to_clipboard]. *)
Definition copy_image_to_clipboard : M t unit :=
  try_except
    (if String.eqb (os_name W) "nt" then
       self <- get ;;
       match captured_image self with
       | None =>
           raise (Exception "'NoneType' object has no attribute 'mode'")
       | Some image_to_copy =>
           let image_to_copy :=
             if mode_eqb (mode_of image_to_copy) RGBA
             then convert RGB image_to_copy
             else image_to_copy in
           lift (put_dib W image_to_copy) ;;
           modify (set_clipboard (ClipDIB image_to_copy)) ;;
           _show_message_from_ui_texts showinfo "info_title"
             "info_image_copied" []
       end
     else
       _show_message_from_ui_texts showinfo "info_title"
         "info_copy_not_supported" [])
    (fun e =>
       _show_message_from_ui_texts showerror "error_title"
         "error_copy_image_failed" [str e]).

(** [dict.get]-style lookup in [language_options]. *)
Fixpoint lookup (k : string) (d : list (string * string)) : option string :=
  match d with
  | [] => None
  | (k', v) :: d' => if String.eqb k k' then Some v else lookup k d'
  end.

(** Lines 684-696: the loop body does not read its loop variables, so
    each round performs the same membership test and assignment. *)
Definition selected_language (self : t) : string :=
  fold_left
    (fun ocr_lang_code _ =>
       match lookup (language_var self) (language_options self) with
       | Some code => code
       | None => ocr_lang_code
       end)
    (language_options self) "tur"%string.

(** V1.1, [perform_ocr]. *)
Definition perform_ocr : M t unit :=
  try_except
    (self <- get ;;
     let ocr_lang_code := selected_language self in
     ocr_processor <-
       in_tess (OCRProcessor.init ocr_lang_code (config_tesseract_path self)) ;;
     self <- get ;;
     extracted_text <-
       in_tess (OCRProcessor.extract_text (engine W) ocr_processor
                  (captured_image self)) ;;
     lift (pyperclip_copy W extracted_text) ;;
     modify (set_clipboard (ClipText extracted_text)) ;;
     _show_message_from_ui_texts showinfo "info_title" "info_text_copied" [])
    (fun e =>
       match e with
       | TesseractNotFoundError =>
           _show_message_from_ui_texts showerror "error_title"
             "error_tesseract_not_found" []
       | Exception _ =>
           _show_message_from_ui_texts showerror "error_title"
             "error_ocr" [str e]
       end).

Definition run_job (j : job) : M t unit :=
  match j with
  | JobDisplay img => display_captured_image img
  | JobCopyImage => copy_image_to_clipboard
  | JobOcr => perform_ocr
  end.

(** A worker takes the oldest submitted job and runs it.  An exception
    of the job stays in its future, which nobody reads. *)
Definition worker_run (s : t) : t :=
  match pending s with
  | [] => s
  | j :: rest => snd (run_job j (set_pending rest s))
  end.
End Jobs.

(** *** The Tk event loop *)

Definition call (f : callback) : M t unit :=
  match f with
  | CbDebounced => debounced_resize_and_update_image
  | CbUpdateLabel => _update_image_label
  end.

(** The timer Tk fires next: the earliest due, the oldest among equals. *)
Fixpoint next_timer (l : list timer) : option timer :=
  match l with
  | [] => None
  | tm :: r =>
      match next_timer r with
      | None => Some tm
      | Some tm' => if due tm <=? due tm' then Some tm else Some tm'
      end
  end.

(** Firing removes the timer from the queue, then runs its callback.
    The clock cannot be earlier than the time the timer was due.  An
    exception of the callback is reported by Tk and the loop goes on. *)
Definition fire (tm : timer) (s : t) : t :=
  snd (call (fn tm)
         (set_now (Z.max (now s) (due tm))
            (set_timers (filter (not_id (timer_id tm)) (timers s)) s))).

(** One fired timer, with the viewport it found. *)
Record firing : Type := mk_firing {
  fired : timer;
  viewport : Z * Z
}.

Fixpoint run_timers (fuel : nat) (T : Z) (s : t) : t * list firing :=
  match fuel with
  | O => (s, [])
  | S fuel' =>
      match next_timer (timers s) with
      | None => (s, [])
      | Some tm =>
          if due tm <=? T then
            let '(s', l) := run_timers fuel' T (fire tm s) in
            (s', {| fired := tm; viewport := label_size s |} :: l)
          else (s, [])
      end
  end.

(** The event loop runs until the clock reads [T].  A callback schedules
    at most one further timer, and only [CbDebounced] does, so twice the
    queue length bounds the number of firings. *)
Definition mainloop_until (T : Z) (s : t) : t * list firing :=
  let '(s', l) := run_timers (2 * List.length (timers s))%nat T s in
  (set_now (Z.max (now s') T) s', l).

(** A [<Configure>] event at time [T]: the geometry manager has given
    the image label the size [sz], and the binding runs. *)
Definition configure (T : Z) (sz : Z * Z) (s : t) : t * list firing :=
  let '(s1, l) := mainloop_until T s in
  (snd (on_window_resize (set_label_size sz s1)), l).

Fixpoint run_events (evs : list (Z * (Z * Z))) (s : t) : t * list firing :=
  match evs with
  | [] => (s, [])
  | (T, sz) :: evs' =>
      let '(s1, l1) := configure T sz s in
      let '(s2, l2) := run_events evs' s1 in
      (s2, l1 ++ l2)
  end.




(** [__init__], once [create_widgets] has run: no capture, both action
    buttons disabled, an unmapped label (Tk reports 1x1 for it), an empty
    timer queue and an idle executor. *)
Definition initial (ocr_languages : list string)
           (language_codes : list (string * string))
           (tesseract_path : option string) : t :=
  {| captured_image := None; tk_image := None; original_image := None;
     resize_job := None;
     language_var := hd ""%string ocr_languages;
     language_options := language_codes;
     config_tesseract_path := tesseract_path;
     label_size := (1, 1); label_image := None;
     image_button := disabled; text_button := disabled;
     now := 0; timers := []; next_after_id := O; pending := [];
     tess := {| pytesseract.tesseract_cmd := "tesseract";
                pytesseract.invocations := [] |};
     clipboard := ClipEmpty; messages := [] |}.

(** What an OCR or clipboard job may not touch: everything of the
    application except pytesseract's state, the clipboard and the list
    of message boxes. *)
Definition controller_view (s : t) :=
  (captured_image s, original_image s, tk_image s, resize_job s,
   (language_var s, language_options s, config_tesseract_path s),
   (label_size s, label_image s, image_button s, text_button s),
   (now s, timers s, next_after_id s, pending s)).

(** The captures that arrive, in order, each through
    [process_captured_image]. *)
Definition captures (cs : list (option image)) (s : t) : t :=
  fold_left (fun st c => snd (process_captured_image c st)) cs s.

(** The capture current after [cs], starting from [img]. *)
Definition current_after (cs : list (option image)) (img : image) : image :=
  fold_left (fun cur c => match c with Some b => b | None => cur end) cs img.

(** What the clipboard job puts on the clipboard: the capture, without
    its alpha channel (lines 660-662). *)
Definition dib_source (img : image) : image :=
  if mode_eqb (mode_of img) RGBA then convert RGB img else img.

(** *** Timer queues and bursts of resize events *)





(** *** The controller's state *)

Inductive controller_state : Type := NoImage | HasImage.

Definition state_of (s : t) : controller_state :=
  match captured_image s with
  | Some _ => HasImage
  | None => NoImage
  end.

(** *** Everything that can happen to the application *)

(** The handlers Tk and the executor run, one at a time: the completion
    callback of a capture, the two action buttons, a worker taking the
    oldest job, a resize event, and the event loop running its timers. *)
Inductive event : Type :=
| EvCaptured (captured : option image)
| EvTextButton
| EvImageButton
| EvWorker
| EvConfigure (T : Z) (sz : Z * Z)
| EvIdle (T : Z).

Section Events.
Variable W : env.

Definition step (ev : event) (s : t) : t :=
  match ev with
  | EvCaptured c => snd (process_captured_image c s)
  | EvTextButton => snd (on_text_button s)
  | EvImageButton => snd (on_image_button s)
  | EvWorker => worker_run W s
  | EvConfigure T sz => fst (configure T sz s)
  | EvIdle T => fst (mainloop_until T s)
  end.

Definition run (evs : list event) (s : t) : t :=
  fold_left (fun st ev => step ev st) evs s.
End Events.

(** The image of the last successful capture among [evs], or [init]. *)
Definition last_capture (evs : list event) (init : option image)
  : option image :=
  fold_left (fun cur ev => match ev with
                           | EvCaptured (Some b) => Some b
                           | _ => cur
                           end) evs init.

Definition is_successful_capture (ev : event) : bool :=
  match ev with EvCaptured (Some _) => true | _ => false end.

(** What no timer callback touches. *)
Definition job_view (s : t) :=
  (captured_image s, original_image s, pending s,
   (tess s, clipboard s, messages s),
   (image_button s, text_button s),
   (language_var s, language_options s, config_tesseract_path s)).

(** The command path [perform_ocr] leaves in the pytesseract module: the
    configured path when there is a non-empty one, else the path already
    there. *)
Definition cmd_for (s : t) : string :=
  match config_tesseract_path s with
  | Some p => if String.eqb p "" then pytesseract.tesseract_cmd (tess s) else p
  | None => pytesseract.tesseract_cmd (tess s)
  end.

(** V1.0, line 693: [self.language_options.get(self.language_var.get(), 'tur')]. *)
Definition selected_language_V1_0 (self : t) : string :=
  match lookup (language_var self) (language_options self) with
  | Some code => code
  | None => "tur"%string
  end.

Definition info (key : string) : message :=
  {| msg_kind := showinfo; title_key := "info_title"; message_key := key;
     format_args := [] |}.

Definition error (key : string) (args : list string) : message :=
  {| msg_kind := showerror; title_key := "error_title"; message_key := key;
     format_args := args |}.

(** The message box each handler of [perform_ocr] shows. *)
Definition ocr_failure (e : exn) : message :=
  match e with
  | TesseractNotFoundError => error "error_tesseract_not_found" []
  | Exception _ => error "error_ocr" [str e]
  end.

End MainApplication.

(** ** Sample worlds *)

(** A Windows machine on which the engine and the clipboard work. *)
Definition working_world : MainApplication.env :=
  {| MainApplication.os_name := "nt";
     MainApplication.engine :=
       {| pytesseract.run_version := fun _ => Ok "5.3.0"%string;
          pytesseract.run_ocr := fun _ _ _ _ => Ok "text"%string |};
     MainApplication.put_dib := fun _ => Ok tt;
     MainApplication.pyperclip_copy := fun _ => Ok tt |}.

(** A Windows machine whose engine is missing and whose clipboard
    refuses the bitmap: both jobs fail. *)
Definition failing_world : MainApplication.env :=
  {| MainApplication.os_name := "nt";
     MainApplication.engine :=
       {| pytesseract.run_version := fun _ => Raise TesseractNotFoundError;
          pytesseract.run_ocr := fun _ _ _ _ => Raise TesseractNotFoundError |};
     MainApplication.put_dib := fun _ => Raise (Exception "OpenClipboard failed");
     MainApplication.pyperclip_copy := fun _ => Ok tt |}.

(** ** ConfigurationManager *)

Module ConfigurationManager.
Local Open Scope monad_scope.

(** What [json.load] returns and [json.dump] accepts.  An object keeps its
    members in insertion order and has each key once, as the [dict] the
    parser builds. *)
#[local] Unset Elimination Schemes.
Inductive json : Type :=
| JNull
| JBool (b : bool)
| JInt (n : Z)
| JFloat (x : Q)
| JString (s : string)
| JArray (items : list json)
| JObject (members : list (string * json)).
#[local] Set Elimination Schemes.

(** [type(v).__name__]. *)
Definition type_name (v : json) : string :=
  match v with
  | JNull => "NoneType"
  | JBool _ => "bool"
  | JInt _ => "int"
  | JFloat _ => "float"
  | JString _ => "str"
  | JArray _ => "list"
  | JObject _ => "dict"
  end.

(** [bool(v)], as [if v:] tests it. *)
Definition truthy (v : json) : bool :=
  match v with
  | JNull => false
  | JBool b => b
  | JInt n => negb (n =? 0)
  | JFloat x => negb (Qeq_bool x 0)
  | JString s => negb (String.eqb s "")
  | JArray items => negb (Nat.eqb (List.length items) 0)
  | JObject members => negb (Nat.eqb (List.length members) 0)
  end.

Definition dict : Type := list (string * json).

(** [d.get(key)]. *)
Fixpoint dict_get (key : string) (d : dict) : option json :=
  match d with
  | [] => None
  | (k, v) :: d' => if String.eqb key k then Some v else dict_get key d'
  end.

(** [d[key] = value]: a key already present keeps its place, a new one
    goes last. *)
Fixpoint dict_set (key : string) (value : json) (d : dict) : dict :=
  match d with
  | [] => [(key, value)]
  | (k, v) :: d' =>
      if String.eqb key k then (k, value) :: d'
      else (k, v) :: dict_set key value d'
  end.

Definition is_str (key : string) (v : json) : bool :=
  match v with
  | JString s => String.eqb key s
  | _ => false
  end.

Definition is_substring (key s : string) : bool :=
  match String.index 0 key s with
  | Some _ => true
  | None => false
  end.

(** [key in config] for a [str] key: a key of a [dict], an element of a
    [list], a substring of a [str]; anything else is not a container. *)
Definition contains (config : json) (key : string) : result bool :=
  match config with
  | JObject d =>
      Ok (match dict_get key d with Some _ => true | None => false end)
  | JArray items => Ok (existsb (is_str key) items)
  | JString s => Ok (is_substring key s)
  | v => Raise (Exception ("argument of type '" ++ type_name v
                           ++ "' is not iterable"))
  end.

(** [config[key] = value] for a [str] key. *)
Definition setitem (config : json) (key : string) (value : json)
  : result json :=
  match config with
  | JObject d => Ok (JObject (dict_set key value d))
  | JArray _ =>
      Raise (Exception "list indices must be integers or slices, not str")
  | v => Raise (Exception ("'" ++ type_name v
                           ++ "' object does not support item assignment"))
  end.

(** [config[key]] for a [str] key. *)
Definition getitem (config : json) (key : string) : result json :=
  match config with
  | JObject d =>
      match dict_get key d with
      | Some v => Ok v
      | None => Raise (Exception ("'" ++ key ++ "'"))
      end
  | JArray _ =>
      Raise (Exception "list indices must be integers or slices, not str")
  | JString _ => Raise (Exception "string indices must be integers, not 'str'")
  | v => Raise (Exception ("'" ++ type_name v
                           ++ "' object is not subscriptable"))
  end.

(** [DEFAULT_CONFIG], decided by [os.name] when the class is created. *)
Definition DEFAULT_CONFIG (os_name : string) : dict :=
  [("tesseract_path"%string,
    JString (if String.eqb os_name "nt"
             then "C:\Program Files\Tesseract-OCR\tesseract.exe"
             else ""));
   ("interface_language"%string, JString "tur")].

(** The configuration file as [load_config] meets it: not there, there
    but [open] or [json.load] raises, or there with a value that
    [json.load] returns. *)
Inductive file : Type :=
| Absent
| Unreadable (e : exn)
| Holds (content : json).

(** The file, what [open(CONFIG_FILE, 'w')] does, and the lines printed. *)
Record t : Type := mk {
  CONFIG_FILE : file;
  open_for_writing : result unit;
  stdout : list string
}.

Definition lift {A} (r : result A) : M t A := fun w => (r, w).

Definition print (line : string) : M t unit :=
  modify (fun w => {| CONFIG_FILE := CONFIG_FILE w;
                      open_for_writing := open_for_writing w;
                      stdout := stdout w ++ [line] |}).

(** Lines 40-42: the loop over [DEFAULT_CONFIG.items()]. *)
Fixpoint fill_defaults (defaults : dict) (config : json) : result json :=
  match defaults with
  | [] => Ok config
  | (key, value) :: rest =>
      match contains config key with
      | Raise e => Raise e
      | Ok true => fill_defaults rest config
      | Ok false =>
          match setitem config key value with
          | Raise e => Raise e
          | Ok config' => fill_defaults rest config'
          end
      end
  end.

(** Lines 35-37: [None] when [os.path.exists] is false. *)
Definition read_config : M t (option json) :=
  fun w =>
    match CONFIG_FILE w with
    | Absent => (Ok None, w)
    | Unreadable e => (Raise e, w)
    | Holds content => (Ok (Some content), w)
    end.

(** [load_config]. *)
Definition load_config (os_name : string) : M t json :=
  loaded <-
    try_except
      (stored <- read_config ;;
       match stored with
       | Some config =>
           config <- lift (fill_defaults (DEFAULT_CONFIG os_name) config) ;;
           ret (Some config)
       | None => ret None
       end)
      (fun e =>
         print ("Error loading configuration: " ++ str e) ;; ret None) ;;
  match loaded with
  | Some config => ret config
  | None => ret (JObject (DEFAULT_CONFIG os_name))
  end.

(** [save_config].  What is written is what a later [json.load] of the
    file returns. *)
Definition save_config (config : json) : M t bool :=
  try_except
    (w <- get ;;
     lift (open_for_writing w) ;;
     modify (fun w => {| CONFIG_FILE := Holds config;
                         open_for_writing := open_for_writing w;
                         stdout := stdout w |}) ;;
     ret true)
    (fun e =>
       print ("Error saving configuration: " ++ str e) ;; ret false).

(** An array that has every default key among its elements, or a string
    that has every default key as a substring: the two shapes that pass
    the loop of [load_config] without being a [dict]. *)
Definition passes_for_dict (os_name : string) (v : json) : bool :=
  match v with
  | JArray items =>
      forallb (fun kv => existsb (is_str (fst kv)) items)
              (DEFAULT_CONFIG os_name)
  | JString s =>
      forallb (fun kv => is_substring (fst kv) s) (DEFAULT_CONFIG os_name)
  | _ => false
  end.

Definition is_object (v : json) : bool :=
  match v with JObject _ => true | _ => false end.

(** A value that cannot be a [dict] key. *)
Definition unhashable (v : json) : bool :=
  match v with JArray _ | JObject _ => true | _ => false end.

End ConfigurationManager.

(** ** The configuration dialog as a window *)

(** [ConfigurationDialog] from its construction to [show]'s return: the
    widgets of the module above, the dialog's copy of the configuration,
    its result, and the message boxes it shows. *)
Module Dialog.
Import ConfigurationManager.
Local Open Scope monad_scope.

Record t : Type := mk {
  widgets : ConfigurationDialog.t;
  config : json;                      (* self.config *)
  self_result : option json;          (* self.result *)
  destroyed : bool;                   (* self.dialog.destroy() was called *)
  boxes : list MainApplication.message
}.

Definition set_widgets v d :=
  {| widgets := v; config := config d; self_result := self_result d;
     destroyed := destroyed d; boxes := boxes d |}.
Definition set_config v d :=
  {| widgets := widgets d; config := v; self_result := self_result d;
     destroyed := destroyed d; boxes := boxes d |}.
Definition set_self_result v d :=
  {| widgets := widgets d; config := config d; self_result := v;
     destroyed := destroyed d; boxes := boxes d |}.
Definition set_destroyed v d :=
  {| widgets := widgets d; config := config d; self_result := self_result d;
     destroyed := v; boxes := boxes d |}.
Definition set_boxes v d :=
  {| widgets := widgets d; config := config d; self_result := self_result d;
     destroyed := destroyed d; boxes := v |}.

(** What the user does to the dialog.  [Validate] is the button and also
    the callback of [after(100, ...)] set up by [create_widgets];
    [Browse path] is the browse button with the answer of
    [askopenfilename]; [Cancel] is the button, Escape and the title bar's
    close. *)
Inductive action : Type :=
| Edit (text : string)
| Browse (path : string)
| Validate
| Save
| Cancel.

Definition lift {A} (r : result A) : M t A := fun d => (r, d).

Definition in_widgets {A} (c : M ConfigurationDialog.t A) : M t A :=
  fun d => match c (widgets d) with (r, w) => (r, set_widgets w d) end.

Definition set_path (text : string) : M t unit :=
  modify (fun d =>
    set_widgets
      {| ConfigurationDialog.tesseract_path_var := text;
         ConfigurationDialog.validation_label :=
           ConfigurationDialog.validation_label (widgets d);
         ConfigurationDialog.tess := ConfigurationDialog.tess (widgets d) |}
      d).

(** [_show_message_from_ui_texts] of the dialog. *)
Definition _show_message_from_ui_texts (k : MainApplication.msg_func)
           (title key : string) (args : list string) : M t unit :=
  modify (fun d =>
    set_boxes (boxes d ++
      [{| MainApplication.msg_kind := k;
          MainApplication.title_key := title;
          MainApplication.message_key := key;
          MainApplication.format_args := args |}]) d).

Section Session.
Variable O : ConfigurationDialog.os.
Variable E : pytesseract.engine.
(** The text a Tk variable holds after it was given a value that is not
    a string. *)
Variable tcl_string : json -> string.

(** [__init__] and [create_widgets]: the dialog works on a copy of the
    configuration it is given; the entry starts with
    [config.get('tesseract_path', '')]. *)
Definition init (parent_config : json) (g : pytesseract.t) : result t :=
  match parent_config with
  | JObject d =>
      let text :=
        match dict_get "tesseract_path" d with
        | None => ""%string
        | Some (JString p) => p
        | Some JNull => ""%string
        | Some v => tcl_string v
        end in
      Ok {| widgets :=
              {| ConfigurationDialog.tesseract_path_var := text;
                 ConfigurationDialog.validation_label := None;
                 ConfigurationDialog.tess := g |};
            config := JObject d;
            self_result := None;
            destroyed := false;
            boxes := [] |}
  | JArray _ => Raise (Exception "'list' object has no attribute 'get'")
  | v => Raise (Exception ("'" ++ type_name v
                           ++ "' object has no attribute 'copy'"))
  end.

(** [browse_tesseract_path]; [path] is what the file dialog returned,
    empty when it was dismissed. *)
Definition browse_tesseract_path (path : string) : M t unit :=
  if String.eqb path "" then ret tt
  else
    set_path path ;;
    in_widgets (ConfigurationDialog.validate_tesseract_path O E) ;;
    ret tt.

(** [on_save]. *)
Definition on_save : M t unit :=
  valid <- in_widgets (ConfigurationDialog.validate_tesseract_path O E) ;;
  if valid then
    d <- get ;;
    config <- lift (setitem (config d) "tesseract_path"
                      (JString (ConfigurationDialog.tesseract_path_var
                                  (widgets d)))) ;;
    modify (set_config config) ;;
    modify (set_self_result (Some config)) ;;
    modify (set_destroyed true)
  else
    _show_message_from_ui_texts MainApplication.showwarning
      "config_invalid_config_title" "config_invalid_config_message" [].

(** [on_cancel]. *)
Definition on_cancel : M t unit :=
  modify (set_destroyed true).

Definition handler (a : action) : M t unit :=
  match a with
  | Edit text => set_path text
  | Browse path => browse_tesseract_path path
  | Validate =>
      in_widgets (ConfigurationDialog.validate_tesseract_path O E) ;; ret tt
  | Save => on_save
  | Cancel => on_cancel
  end.

(** A destroyed dialog receives nothing; an exception of a handler is
    reported by Tk and the dialog goes on. *)
Definition step (d : t) (a : action) : t :=
  if destroyed d then d else snd (handler a d).

Definition run (actions : list action) (d : t) : t :=
  fold_left step actions d.

(** [show]: [wait_window] returns once the dialog is destroyed; [None]
    when the actions leave it open. *)
Definition show (actions : list action) (d : t) : option (option json) :=
  let d' := run actions d in
  if destroyed d' then Some (self_result d') else None.

(** A path that validation accepts. *)
Definition validated (p : string) : Prop :=
  p <> ""%string
  /\ ConfigurationDialog.path_exists O p = true
  /\ exists v, pytesseract.run_version E p = Ok v.

(** What holds of a dialog opened on the configuration [JObject members]
    with pytesseract in state [g], whatever has been done to it. *)
Definition dialog_inv (members : dict) (g : pytesseract.t) (d : t) : Prop :=
  ConfigurationDialog.tess (widgets d) = g
  /\ (destroyed d = false ->
      config d = JObject members /\ self_result d = None)
  /\ (destroyed d = true ->
      self_result d = None
      \/ exists p,
           validated p
           /\ self_result d
              = Some (JObject (dict_set "tesseract_path" (JString p) members))).

End Session.
End Dialog.

(** ** The main window *)

(** The rest of [MainApplication]: the configuration and the interface
    language, the capture from the "+ New" button to the completion
    callback, and the events that reach the window. *)
Module MainWindow.
Import ConfigurationManager.
Local Open Scope monad_scope.

(** The two entries of a language's texts the program computes with. *)
Record texts : Type := mk_texts {
  ocr_languages : list string;
  language_codes : list (string * string)
}.

Definition tur : texts :=
  {| ocr_languages := ["Türkçe"; "İngilizce"]%string;
     language_codes := [("Türkçe", "tur"); ("İngilizce", "eng")]%string |}.

Definition eng : texts :=
  {| ocr_languages := ["Turkish"; "English"]%string;
     language_codes := [("Turkish", "tur"); ("English", "eng")]%string |}.

Definition UI_TEXTS_BY_LANGUAGE : list (string * texts) :=
  [("tur"%string, tur); ("eng"%string, eng)].

Fixpoint assoc {A} (k : string) (l : list (string * A)) : option A :=
  match l with
  | [] => None
  | (k', v) :: l' => if String.eqb k k' then Some v else assoc k l'
  end.

(** [UI_TEXTS_BY_LANGUAGE.get(lang_code, UI_TEXTS_BY_LANGUAGE['tur'])].
    A key that is not a string is looked up like any other, and found
    only if it can be hashed. *)
Definition texts_for (lang_code : json) : result texts :=
  match lang_code with
  | JString code =>
      Ok (match assoc code UI_TEXTS_BY_LANGUAGE with
          | Some ui => ui
          | None => tur
          end)
  | JArray _ | JObject _ =>
      Raise (Exception ("unhashable type: '" ++ type_name lang_code ++ "'"))
  | _ => Ok tur
  end.

Inductive window_state : Type := shown | withdrawn.

Record t : Type := mk {
  app : MainApplication.t;
  config : json;                           (* self.config *)
  ui_texts : texts;
  combobox_values : list string;           (* language_combobox's values *)
  files : ConfigurationManager.t;
  delay_var : Z;
  root : window_state;
  capture_timers : list Z;                 (* after(ms, capture_process) *)
  overlay : option (option ScreenCapturer.t)
    (* the selection window and its capturer; no anchor before a press *)
}.

Definition set_app v s :=
  let '(mk _ b c d e f g h i) := s in mk v b c d e f g h i.
Definition set_config v s :=
  let '(mk a _ c d e f g h i) := s in mk a v c d e f g h i.
Definition set_ui_texts v s :=
  let '(mk a b _ d e f g h i) := s in mk a b v d e f g h i.
Definition set_combobox_values v s :=
  let '(mk a b c _ e f g h i) := s in mk a b c v e f g h i.
Definition set_files v s :=
  let '(mk a b c d _ f g h i) := s in mk a b c d v f g h i.
Definition set_delay_var v s :=
  let '(mk a b c d e _ g h i) := s in mk a b c d e v g h i.
Definition set_root v s :=
  let '(mk a b c d e f _ h i) := s in mk a b c d e f v h i.
Definition set_capture_timers v s :=
  let '(mk a b c d e f g _ i) := s in mk a b c d e f g v i.
Definition set_overlay v s :=
  let '(mk a b c d e f g h _) := s in mk a b c d e f g h v.

Definition set_language_var v (a : MainApplication.t) :=
  let '(MainApplication.mk a b c d _ f g h i j k l m n o p q r) := a in
  MainApplication.mk a b c d v f g h i j k l m n o p q r.
Definition set_language_options v (a : MainApplication.t) :=
  let '(MainApplication.mk a b c d e _ g h i j k l m n o p q r) := a in
  MainApplication.mk a b c d e v g h i j k l m n o p q r.
Definition set_config_tesseract_path v (a : MainApplication.t) :=
  let '(MainApplication.mk a b c d e f _ h i j k l m n o p q r) := a in
  MainApplication.mk a b c d e f v h i j k l m n o p q r.

Definition lift {A} (r : result A) : M t A := fun s => (r, s).

Definition in_app {A} (c : M MainApplication.t A) : M t A :=
  fun s => match c (app s) with (r, a) => (r, set_app a s) end.

Definition in_files {A} (c : M ConfigurationManager.t A) : M t A :=
  fun s => match c (files s) with (r, w) => (r, set_files w s) end.

(** [self.config.get('tesseract_path')] as [perform_ocr] hands it to
    [OCRProcessor]: exact for a string, [null] and a missing entry.  The
    dialog stores nothing but strings. *)
Definition tesseract_path_of (config : json) : option string :=
  match config with
  | JObject d =>
      match dict_get "tesseract_path" d with
      | Some (JString p) => Some p
      | _ => None
      end
  | _ => None
  end.

(** [self.config = config]. *)
Definition assign_config (config : json) : M t unit :=
  modify (set_config config) ;;
  in_app (modify (set_config_tesseract_path (tesseract_path_of config))).

(** [update_ui_texts], lines 519-526: the combobox takes the new names;
    a selection that is not among them is replaced by the first. *)
Definition update_ui_texts : M t unit :=
  s <- get ;;
  let ui := ui_texts s in
  modify (set_combobox_values (ocr_languages ui)) ;;
  let current_selection := MainApplication.language_var (app s) in
  if negb (existsb (String.eqb current_selection) (ocr_languages ui)) then
    match ocr_languages ui with
    | first :: _ => in_app (modify (set_language_var first))
    | [] => raise (Exception "list index out of range")
    end
  else
    in_app (modify (set_language_var current_selection)).

(** [switch_language(lang_code)]. *)
Definition switch_language (lang_code : json) : M t unit :=
  ui <- lift (texts_for lang_code) ;;
  modify (set_ui_texts ui) ;;
  in_app (modify (set_language_options (language_codes ui))) ;;
  s <- get ;;
  config <- lift (setitem (config s) "interface_language" lang_code) ;;
  assign_config config ;;
  in_files (save_config config) ;;
  update_ui_texts.

(** [__init__]: the object it builds, or the exception it raises, and
    the file system it leaves. *)
Definition __init__ (os_name : string) (w : ConfigurationManager.t)
  : result t * ConfigurationManager.t :=
  match load_config os_name w with
  | (Raise e, w') => (Raise e, w')
  | (Ok config, w') =>
      match getitem config "interface_language" with
      | Raise e => (Raise e, w')
      | Ok lang_code =>
          match texts_for lang_code with
          | Raise e => (Raise e, w')
          | Ok ui =>
              let self :=
                {| app := MainApplication.initial (ocr_languages ui)
                            (language_codes ui) (tesseract_path_of config);
                   config := config;
                   ui_texts := ui;
                   combobox_values := [];
                   files := w';
                   delay_var := 0;
                   root := shown;
                   capture_timers := [];
                   overlay := None |} in
              match switch_language lang_code self with
              | (Ok _, self') => (Ok self', files self')
              | (Raise e, self') => (Raise e, files self')
              end
          end
      end
  end.

Section Handlers.
Variable W : MainApplication.env.
Variable O : ConfigurationDialog.os.
Variable tcl_string : json -> string.
Variable screenshot : ScreenCapturer.region -> result image.

(** [show_configuration]; [actions] is what the user does in the
    dialog.  While the dialog is open [show] has not returned and
    nothing after it runs. *)
Definition show_configuration (actions : list Dialog.action) : M t unit :=
  s <- get ;;
  dialog <- lift (Dialog.init tcl_string (config s)
                    (MainApplication.tess (app s))) ;;
  let E := MainApplication.engine W in
  let closed := Dialog.run O E actions dialog in
  in_app (modify (MainApplication.set_tess
                    (ConfigurationDialog.tess (Dialog.widgets closed)))) ;;
  in_app (modify (fun a =>
            MainApplication.set_messages
              (MainApplication.messages a ++ Dialog.boxes closed) a)) ;;
  match Dialog.show O E actions dialog with
  | Some (Some result) =>
      if truthy result then
        assign_config result ;;
        in_files (save_config result) ;;
        ret tt
      else ret tt
  | _ => ret tt
  end.

(** [start_capture]. *)
Definition start_capture : M t unit :=
  s <- get ;;
  let delay := delay_var s in
  modify (set_root withdrawn) ;;
  if 0 <? delay then
    modify (fun s => set_capture_timers (capture_timers s ++ [delay * 1000]) s)
  else
    modify (fun s => set_capture_timers (capture_timers s ++ [50]) s).

(** [capture_process]: a new [ScreenCapturer] and its overlay. *)
Definition capture_process : M t unit :=
  modify (set_overlay (Some None)).

(** [process_captured_image], with the window it brings back. *)
Definition process_captured_image (captured : option image) : M t unit :=
  modify (set_root shown) ;;
  in_app (MainApplication.process_captured_image captured).

Fixpoint for_each {A} (f : A -> M t unit) (l : list A) : M t unit :=
  match l with
  | [] => ret tt
  | a :: l' => f a ;; for_each f l'
  end.

(** The overlay's handlers. *)
Definition on_button_press (x_root y_root : Z) : M t unit :=
  modify (fun s =>
    match overlay s with
    | Some capturer =>
        let self :=
          match capturer with
          | Some self => self
          | None => {| ScreenCapturer.start_x := 0;
                       ScreenCapturer.start_y := 0;
                       ScreenCapturer.captured_image := None |}
          end in
        set_overlay
          (Some (Some (ScreenCapturer.on_button_press self x_root y_root))) s
    | None => s
    end).

Definition on_button_release (end_x end_y : Z) : M t unit :=
  s <- get ;;
  match overlay s with
  | Some (Some self) =>
      let '(_, effects) :=
        ScreenCapturer.on_button_release screenshot self end_x end_y in
      modify (set_overlay None) ;;
      for_each process_captured_image (ScreenCapturer.callbacks effects)
  | Some None =>
      raise (Exception
        "'<' not supported between instances of 'int' and 'NoneType'")
  | None => ret tt
  end.

(** [cancel_capture]. *)
Definition cancel_capture : M t unit :=
  modify (set_overlay None).

Definition delay_options : list Z := [0; 3; 5; 10].

(** What reaches the program.  The first group needs the main window on
    screen, the second the overlay; timers, workers and geometry changes
    need neither. *)
Inductive event : Type :=
| ClickNew
| ChooseOcrLanguage (name : string)
| ChooseDelay (seconds : Z)
| MenuLanguage (lang_code : string)
| MenuConfiguration (actions : list Dialog.action)
| ClickText
| ClickImage
| Press (x_root y_root : Z)
| Drag (x y : Z)
| Release (x_root y_root : Z)
| Escape
| CaptureTimer
| Worker
| Configure (T : Z) (sz : Z * Z)
| Idle (T : Z).

Definition visible (s : t) : bool :=
  match root s with shown => true | withdrawn => false end.

Definition in_main_window (c : M t unit) (s : t) : t :=
  if visible s then snd (c s) else s.

Definition app_step (ev : MainApplication.event) (s : t) : t :=
  set_app (MainApplication.step W ev (app s)) s.

Definition step (s : t) (ev : event) : t :=
  match ev with
  | ClickNew => in_main_window start_capture s
  | ChooseOcrLanguage name =>
      if existsb (String.eqb name) (combobox_values s) then
        in_main_window (in_app (modify (set_language_var name))) s
      else s
  | ChooseDelay seconds =>
      if existsb (Z.eqb seconds) delay_options then
        in_main_window (modify (set_delay_var seconds)) s
      else s
  | MenuLanguage lang_code =>
      in_main_window (switch_language (JString lang_code)) s
  | MenuConfiguration actions =>
      in_main_window (show_configuration actions) s
  | ClickText =>
      if visible s then app_step MainApplication.EvTextButton s else s
  | ClickImage =>
      if visible s then app_step MainApplication.EvImageButton s else s
  | Press x_root y_root => snd (on_button_press x_root y_root s)
  | Drag _ _ => s
  | Release x_root y_root => snd (on_button_release x_root y_root s)
  | Escape => snd (cancel_capture s)
  | CaptureTimer =>
      match capture_timers s with
      | _ :: rest => snd (capture_process (set_capture_timers rest s))
      | [] => s
      end
  | Worker => app_step MainApplication.EvWorker s
  | Configure T sz => app_step (MainApplication.EvConfigure T sz) s
  | Idle T => app_step (MainApplication.EvIdle T) s
  end.

Definition run (evs : list event) (s : t) : t :=
  fold_left step evs s.

End Handlers.

(** A pointer movement on the overlay with the button down or up. *)
Definition move (m : bool * (Z * Z)) : event :=
  let '(press, (x, y)) := m in
  if press then Press x y else Drag x y.


(** The OCR language codes of the two tables. *)
Definition known_code (code : string) : bool :=
  String.eqb code "tur" || String.eqb code "eng".

(** The contents of a configuration file with which [__init__] raises. *)
Definition refuses_to_start (os_name : string) (c : json) : bool :=
  passes_for_dict os_name c
  || match c with
     | JObject d =>
         match dict_get "interface_language" d with
         | Some v => unhashable v
         | None => false
         end
     | _ => false
     end.

(** The configuration is a [dict] with every default key, and the file
    holds it. *)
Definition persisted (os_name : string) (s : t) : Prop :=
  exists d,
    config s = JObject d
    /\ (forall k v, In (k, v) (DEFAULT_CONFIG os_name) -> dict_get k d <> None)
    /\ CONFIG_FILE (files s) = Holds (config s)
    /\ open_for_writing (files s) = Ok tt.

(** The OCR language selection fits the interface language, and the
    engine has been run with the codes of the tables only. *)
Definition language_ok (s : t) : Prop :=
  is_object (config s) = true
  /\ (ui_texts s = tur \/ ui_texts s = eng)
  /\ MainApplication.language_options (app s) = language_codes (ui_texts s)
  /\ combobox_values s = ocr_languages (ui_texts s)
  /\ In (MainApplication.language_var (app s)) (ocr_languages (ui_texts s))
  /\ Forall (fun i => known_code (pytesseract.inv_lang i) = true)
        (pytesseract.invocations (MainApplication.tess (app s))).

(** Nothing of the program is on screen and no capture is scheduled. *)
Definition hidden (s : t) : Prop :=
  root s = withdrawn /\ overlay s = None /\ capture_timers s = [].

End MainWindow.

(** ** A sample window *)

(** No configuration file, in a directory that can be written. *)
Definition sample_files : ConfigurationManager.t :=
  {| ConfigurationManager.CONFIG_FILE := ConfigurationManager.Absent;
     ConfigurationManager.open_for_writing := Ok tt;
     ConfigurationManager.stdout := [] |}.

(** A file system with the engine at one path. *)
Definition sample_os : ConfigurationDialog.os :=
  {| ConfigurationDialog.path_exists :=
       fun p => String.eqb p "C:\Tesseract-OCR\tesseract.exe" |}.

(** A screen that delivers a bitmap of the extent asked for. *)
Definition sample_screen (r : ScreenCapturer.region) : result image :=
  let '(_, _, width, height) := r in Ok (Bitmap 0 RGB (width, height)).

(** The main window with the Turkish texts, on screen, nothing captured. *)
Definition sample_window : MainWindow.t :=
  {| MainWindow.app :=
       MainApplication.initial (MainWindow.ocr_languages MainWindow.tur)
         (MainWindow.language_codes MainWindow.tur) None;
     MainWindow.config :=
       ConfigurationManager.JObject (ConfigurationManager.DEFAULT_CONFIG "nt");
     MainWindow.ui_texts := MainWindow.tur;
     MainWindow.combobox_values := MainWindow.ocr_languages MainWindow.tur;
     MainWindow.files := sample_files;
     MainWindow.delay_var := 0;
     MainWindow.root := MainWindow.shown;
     MainWindow.capture_timers := [];
     MainWindow.overlay := None |}.

(* ===================================================================== *)
(** * Part II. Properties                                                 *)
(* ===================================================================== *)

(* Split a conjunction without unfolding its conjuncts. *)
Ltac splits := repeat match goal with |- _ /\ _ => split end.

(** ** Region selection *)

(** C8. A drag from the anchor [(ax, ay)] to the release point [(bx, by)]
    selects the normalized bounding box: origin [(min ax bx, min ay by)],
    width [|ax - bx|] and height [|ay - by|], both non-negative; this is
    the region the grabber is called with whenever it is called; and the
    drag from (100,100) to (50,50) selects (50,50,50,50). *)
Theorem selection_is_normalized_bounding_box :
  forall (screenshot : ScreenCapturer.region -> result image)
         (self : ScreenCapturer.t) (ax ay bx by_ : Z),
    let pressed := ScreenCapturer.on_button_press self ax ay in
    let rect := ScreenCapturer.selection_rectangle pressed bx by_ in
    rect = (Z.min ax bx, Z.min ay by_, Z.abs (ax - bx), Z.abs (ay - by_))
    /\ 0 <= Z.abs (ax - bx) /\ 0 <= Z.abs (ay - by_)
    /\ (forall r,
          In (ScreenCapturer.Screenshot r)
             (snd (ScreenCapturer.on_button_release screenshot pressed bx by_)) ->
          r = rect)
    /\ ScreenCapturer.selection_rectangle
         (ScreenCapturer.on_button_press self 100 100) 50 50
       = (50, 50, 50, 50).
Proof.
  intros screenshot self ax ay bx by_ pressed rect.
  assert (Hrect : rect = (Z.min ax bx, Z.min ay by_,
                          Z.abs (ax - bx), Z.abs (ay - by_))).
  { subst rect pressed. unfold ScreenCapturer.selection_rectangle; cbn.
    repeat f_equal; lia. }
  repeat split; try lia; try exact Hrect; try reflexivity.
  intros r Hin.
  unfold ScreenCapturer.on_button_release in Hin.
  fold rect in Hin. rewrite Hrect in Hin |- *.
  destruct ((0 <? Z.abs (ax - bx)) && (0 <? Z.abs (ay - by_)));
    [destruct (screenshot _)|]; cbn in Hin;
    intuition (try discriminate; congruence).
Qed.



(** The earlier revision has no such test: whatever the extent, its
    handler calls the grabber on the selected rectangle. *)
Lemma on_button_release_V1_0_always_reads :
  forall screenshot self end_x end_y,
    In (ScreenCapturer.Screenshot
          (ScreenCapturer.selection_rectangle self end_x end_y))
       (snd (ScreenCapturer.on_button_release_V1_0 screenshot self end_x end_y)).
Proof.
  intros. unfold ScreenCapturer.on_button_release_V1_0.
  destruct (screenshot _); cbn; auto 6.
Qed.

(** ** Path validation *)

Section ValidationFacts.
Import ConfigurationDialog.
Variable O : os.
Variable E : pytesseract.engine.

(** While the version query runs, the global command is the candidate:
    the verdict is the engine's answer at the candidate path. *)
Lemma validate_probes_candidate d :
  tesseract_path_var d <> ""%string ->
  path_exists O (tesseract_path_var d) = true ->
  fst (validate_tesseract_path O E d)
  = Ok (match pytesseract.run_version E (tesseract_path_var d) with
        | Ok _ => true
        | Raise _ => false
        end).
Proof.
  intros Hne Hex. unfold validate_tesseract_path, bind, get.
  apply String.eqb_neq in Hne. rewrite Hne, Hex. cbn.
  unfold try_finally, try_except, bind, in_tess, pytesseract.get_tesseract_version.
  cbn. destruct (pytesseract.run_version E (tesseract_path_var d)); reflexivity.
Qed.
End ValidationFacts.


(** ** The OCR adapter *)

(** C6, as stated, fails: the mode string the engine receives selects
    Tesseract's LSTM-only engine (oem 1), not the combined legacy + LSTM
    engine (oem 2). *)
Lemma ocr_engine_mode_is_not_legacy_plus_lstm :
  let E := {| pytesseract.run_version := fun _ => Ok "5.3.0"%string;
              pytesseract.run_ocr := fun _ _ _ _ => Ok "text"%string |} in
  let g := {| pytesseract.tesseract_cmd := "tesseract";
              pytesseract.invocations := [] |} in
  let img := Bitmap 0 RGB (40, 20) in
  ~ (forall i,
        In i (pytesseract.invocations
                (snd (OCRProcessor.extract_text E (OCRProcessor.mk "eng")
                        (Some img) g))) ->
        Tesseract.engine_mode (pytesseract.inv_config i)
        = Some Tesseract.OEM_TESSERACT_LSTM_COMBINED).
Proof.
  intros E g img H.
  specialize (H _ (or_introl eq_refl)). discriminate H.
Qed.

(** C6, amended. Every extraction converts the image to grayscale first
    and runs the engine once, on the grayscale image, with the processor's
    language and the fixed mode string [--oem 1 --psm 6]: page
    segmentation "single uniform block of text", engine "LSTM only". *)
Theorem extract_text_grayscale_fixed_mode :
  forall (E : pytesseract.engine) (self : OCRProcessor.t) (img : image)
         (g : pytesseract.t),
    OCRProcessor.extract_text E self (Some img) g
    = (pytesseract.run_ocr E (pytesseract.tesseract_cmd g) (convert L img)
         (OCRProcessor.language self) "--oem 1 --psm 6",
       {| pytesseract.tesseract_cmd := pytesseract.tesseract_cmd g;
          pytesseract.invocations :=
            pytesseract.invocations g ++
            [{| pytesseract.inv_cmd := pytesseract.tesseract_cmd g;
                pytesseract.inv_image := convert L img;
                pytesseract.inv_lang := OCRProcessor.language self;
                pytesseract.inv_config := "--oem 1 --psm 6" |}] |})
    /\ mode_of (convert L img) = L
    /\ Tesseract.page_seg_mode "--oem 1 --psm 6" = Some Tesseract.PSM_SINGLE_BLOCK
    /\ Tesseract.engine_mode "--oem 1 --psm 6" = Some Tesseract.OEM_LSTM_ONLY.
Proof.
  intros E self img g. repeat split.
  unfold OCRProcessor.extract_text, bind, ret, pytesseract.image_to_string.
  destruct (pytesseract.run_ocr E _ _ _ _); reflexivity.
Qed.

(** ** Scaling for display: the two guards *)

(** C9. With no captured image, or a viewport of width or height at most
    1, [resize_image] returns normally and changes nothing: the cached
    display image and every other field are as before. *)
Theorem resize_image_skips_degenerate :
  forall s : MainApplication.t,
    MainApplication.original_image s = None
    \/ fst (MainApplication.label_size s) <= 1
    \/ snd (MainApplication.label_size s) <= 1 ->
    MainApplication.resize_image s = (Ok tt, s).
Proof.
  intros s H. unfold MainApplication.resize_image, bind, get.
  destruct (MainApplication.original_image s) as [orig|]; [|reflexivity].
  destruct (MainApplication.label_size s) as [lw lh]; cbn [fst snd] in H.
  destruct H as [H | H]; [discriminate|].
  assert (G : (lw <=? 1) || (lh <=? 1) = true).
  { apply orb_true_iff. destruct H; [left | right]; now apply Z.leb_le. }
  rewrite G. reflexivity.
Qed.

Lemma resize_image_skips_degenerate_witness :
  let s := MainApplication.set_original_image (Some (Bitmap 0 RGB (640, 480)))
             (MainApplication.initial ["Turkish"; "English"]%string
                [("Turkish", "tur"); ("English", "eng")]%string None) in
  MainApplication.resize_image s = (Ok tt, s).
Proof.
  intros s. apply (resize_image_skips_degenerate s).
  right; left. cbn. lia.
Defined.

(** C4, as stated, fails: a 1x1 source in a 1x1 viewport fits on both
    axes, yet the rescale returns at the viewport guard and the display
    image stays what it was (here: none). *)
Lemma fitting_source_in_unit_viewport_is_not_displayed :
  ~ (forall (s : MainApplication.t) (img : image),
        MainApplication.original_image s = Some img ->
        fst (size img) <= fst (MainApplication.label_size s) ->
        snd (size img) <= snd (MainApplication.label_size s) ->
        MainApplication.tk_image (snd (MainApplication.resize_image s))
        = Some img).
Proof.
  intros H.
  specialize (H (MainApplication.set_original_image (Some (Bitmap 0 RGB (1, 1)))
                   (MainApplication.initial [] [] None))
                (Bitmap 0 RGB (1, 1)) eq_refl).
  cbn in H. discriminate H; lia.
Qed.

(** C4, amended. When the viewport is more than 1 pixel wide and high and
    the source is no larger than the viewport on either axis, the display
    image becomes the source itself: no [resize] is applied, and nothing
    else changes. *)
Theorem resize_image_never_upscales :
  forall (s : MainApplication.t) (img : image),
    MainApplication.original_image s = Some img ->
    1 < fst (MainApplication.label_size s) ->
    1 < snd (MainApplication.label_size s) ->
    fst (size img) <= fst (MainApplication.label_size s) ->
    snd (size img) <= snd (MainApplication.label_size s) ->
    MainApplication.resize_image s
    = (Ok tt, MainApplication.set_tk_image (Some img) s).
Proof.
  intros s img Himg Hw Hh Hfw Hfh.
  unfold MainApplication.resize_image, bind, get. rewrite Himg.
  destruct (MainApplication.label_size s) as [lw lh].
  destruct (size img) as [ow oh]. cbn [fst snd] in *.
  replace ((lw <=? 1) || (lh <=? 1)) with false
    by (symmetry; apply orb_false_iff; split; apply Z.leb_gt; lia).
  replace ((ow <=? lw) && (oh <=? lh)) with true
    by (symmetry; apply andb_true_iff; split; apply Z.leb_le; lia).
  reflexivity.
Qed.

Lemma resize_image_never_upscales_witness :
  let img := Bitmap 0 RGB (640, 480) in
  let s := MainApplication.set_label_size (1270, 660)
             (MainApplication.set_original_image (Some img)
                (MainApplication.initial [] [] None)) in
  MainApplication.resize_image s
  = (Ok tt, MainApplication.set_tk_image (Some img) s).
Proof.
  intros img s.
  apply (resize_image_never_upscales s img); cbn; try reflexivity; lia.
Defined.

(** ** The user jobs *)

Section JobFacts.
Import MainApplication.
Variable W : env.

Ltac run_body :=
  unfold perform_ocr, copy_image_to_clipboard, try_except, bind, get,
    modify, raise, ret, lift, in_tess, _show_message_from_ui_texts,
    OCRProcessor.init, OCRProcessor.extract_text,
    pytesseract.image_to_string, pytesseract.set_tesseract_cmd;
  cbn.

(* Case analysis on the innermost scrutinee first. *)
Ltac split_cases :=
  repeat match goal with
         | |- context [match ?x with _ => _ end] =>
             lazymatch x with
             | context [match _ with _ => _ end] => fail
             | _ => destruct x eqn:?; cbn
             end
         end.

(** The OCR job returns normally on every outcome and leaves the
    controller's fields alone. *)
Lemma perform_ocr_frame s :
  fst (perform_ocr W s) = Ok tt
  /\ controller_view (snd (perform_ocr W s)) = controller_view s.
Proof.
  destruct s. run_body. unfold bind, modify, ret; cbn.
  split_cases; split; reflexivity.
Qed.

Lemma copy_image_to_clipboard_frame s :
  fst (copy_image_to_clipboard W s) = Ok tt
  /\ controller_view (snd (copy_image_to_clipboard W s)) = controller_view s.
Proof.
  destruct s. run_body. split_cases; split; reflexivity.
Qed.

(** The image the engine is run on is the one [captured_image] holds
    when the job runs. *)
Lemma perform_ocr_reads_current_image s img :
  captured_image s = Some img ->
  map pytesseract.inv_image (pytesseract.invocations (tess (snd (perform_ocr W s))))
  = map pytesseract.inv_image (pytesseract.invocations (tess s))
    ++ [convert L img].
Proof.
  destruct s. cbn. intros ->. run_body. unfold bind, modify, ret; cbn.
  split_cases; rewrite ?map_app; reflexivity.
Qed.

(** Arriving captures queue behind what is pending and leave
    pytesseract alone; the last successful one is the current image. *)
Lemma captures_spec cs : forall s img,
  captured_image s = Some img ->
  captured_image (captures cs s) = Some (current_after cs img)
  /\ tess (captures cs s) = tess s
  /\ clipboard (captures cs s) = clipboard s
  /\ exists later, pending (captures cs s) = pending s ++ later.
Proof.
  induction cs as [|c cs IH]; intros s img Hs; cbn.
  - repeat split; auto. exists []. now rewrite app_nil_r.
  - destruct c as [b|].
    + destruct (IH (snd (process_captured_image (Some b) s)) b)
        as (H1 & H2 & H3 & later & H4); [destruct s; reflexivity|].
      unfold captures in *. rewrite H1, H2, H3, H4.
      destruct s; cbn. repeat split.
      exists (JobDisplay b :: later). now rewrite <- app_assoc.
    + destruct (IH (snd (process_captured_image None s)) img)
        as (H1 & H2 & H3 & later & H4); [destruct s; exact Hs|].
      unfold captures in *. rewrite H1, H2, H3, H4.
      destruct s; cbn. repeat split. now exists later.
Qed.

Lemma copy_image_reads_current_image s img :
  captured_image s = Some img ->
  os_name W = "nt"%string ->
  put_dib W (MainApplication.dib_source img) = Ok tt ->
  clipboard (snd (copy_image_to_clipboard W s)) = ClipDIB (MainApplication.dib_source img).
Proof.
  destruct s. cbn. intros -> Hos Hput. run_body. rewrite Hos. cbn.
  unfold MainApplication.dib_source in Hput |- *.
  destruct (mode_eqb (mode_of img) RGBA); rewrite Hput; reflexivity.
Qed.

(** On a platform other than Windows the clipboard job shows the "not
    supported" message and does nothing else. *)
Lemma copy_image_unsupported s :
  os_name W <> "nt"%string ->
  copy_image_to_clipboard W s
  = (Ok tt,
     set_messages (messages s ++
       [{| msg_kind := showinfo; title_key := "info_title";
           message_key := "info_copy_not_supported";
           format_args := [] |}]) s).
Proof.
  intros Hos. apply String.eqb_neq in Hos.
  run_body. rewrite Hos. reflexivity.
Qed.

(** A job submitted to an idle executor, run after the captures [cs]
    have arrived. *)
Lemma submitted_job_runs_after_captures (j : job) cs s img :
  captured_image s = Some img ->
  pending s = [] ->
  exists s2,
    worker_run W (captures cs (snd (submit j s))) = snd (run_job W j s2)
    /\ captured_image s2 = Some (current_after cs img)
    /\ tess s2 = tess s
    /\ clipboard s2 = clipboard s.
Proof.
  intros Himg Hpend.
  destruct (captures_spec cs (snd (submit j s)) img)
    as (H1 & H2 & H3 & later & H4); [destruct s; exact Himg|].
  assert (Hp : pending (snd (submit j s)) = [j])
    by (destruct s; cbn in *; now subst).
  rewrite Hp in H4. change ([j] ++ later) with (j :: later) in H4.
  exists (set_pending later (captures cs (snd (submit j s)))).
  unfold worker_run. rewrite H4.
  split; [reflexivity|].
  destruct (captures cs (snd (submit j s))); cbn in *.
  rewrite H1, H2, H3. destruct s; repeat split.
Qed.
End JobFacts.

(** C7. An OCR job or a clipboard job started with an image captured
    returns normally whatever the platform, the engine and the clipboard
    do, and on return the captured image and every other field of the
    controller are what they were: the controller is still in HasImage. *)
Theorem jobs_keep_captured_image :
  forall (W : MainApplication.env) (s : MainApplication.t),
    MainApplication.state_of s = MainApplication.HasImage ->
    (fst (MainApplication.perform_ocr W s) = Ok tt
     /\ MainApplication.captured_image (snd (MainApplication.perform_ocr W s))
        = MainApplication.captured_image s
     /\ MainApplication.controller_view (snd (MainApplication.perform_ocr W s))
        = MainApplication.controller_view s
     /\ MainApplication.state_of (snd (MainApplication.perform_ocr W s))
        = MainApplication.HasImage)
    /\ (fst (MainApplication.copy_image_to_clipboard W s) = Ok tt
        /\ MainApplication.captured_image
             (snd (MainApplication.copy_image_to_clipboard W s))
           = MainApplication.captured_image s
        /\ MainApplication.controller_view
             (snd (MainApplication.copy_image_to_clipboard W s))
           = MainApplication.controller_view s
        /\ MainApplication.state_of
             (snd (MainApplication.copy_image_to_clipboard W s))
           = MainApplication.HasImage).
Proof.
  intros W s Hs.
  destruct (perform_ocr_frame W s) as [Ho Hov].
  destruct (copy_image_to_clipboard_frame W s) as [Hc Hcv].
  assert (Hcap : forall s', MainApplication.controller_view s'
                            = MainApplication.controller_view s ->
                            MainApplication.captured_image s'
                            = MainApplication.captured_image s).
  { intros s' H. unfold MainApplication.controller_view in H. congruence. }
  unfold MainApplication.state_of in *.
  split; (split; [assumption|]); (split; [auto|]);
    (split; [assumption|]).
  - now rewrite (Hcap _ Hov).
  - now rewrite (Hcap _ Hcv).
Qed.

Lemma jobs_keep_captured_image_witness :
  let s := snd (MainApplication.process_captured_image
                  (Some (Bitmap 1 RGB (640, 480)))
                  (MainApplication.initial [] [] None)) in
  MainApplication.captured_image
    (snd (MainApplication.perform_ocr failing_world s))
  = MainApplication.captured_image s.
Proof.
  intros s.
  apply (jobs_keep_captured_image failing_world s). reflexivity.
Defined.

(** C1, as stated, fails.  Image A is captured and displayed; the user
    presses the text button; before a worker takes the job, a new capture
    delivers image B.  The engine is then run on B. *)
Lemma ocr_job_reads_the_replacing_capture :
  let A := Bitmap 1 RGB (640, 480) in
  let B := Bitmap 2 RGB (320, 200) in
  let s0 := MainApplication.worker_run working_world
              (snd (MainApplication.process_captured_image (Some A)
                      (MainApplication.initial [] [] None))) in
  let submitted := snd (MainApplication.on_text_button s0) in
  let replaced := snd (MainApplication.process_captured_image (Some B) submitted) in
  let done := MainApplication.worker_run working_world replaced in
  MainApplication.captured_image s0 = Some A
  /\ MainApplication.pending submitted = [MainApplication.JobOcr]
  /\ map (fun i => content_of (pytesseract.inv_image i))
         (pytesseract.invocations (MainApplication.tess done))
     = [content_of B]
  /\ content_of B <> content_of A.
Proof.
  cbn. repeat split. discriminate.
Qed.

(** C1, amended. A job holds no image: it reads [captured_image] when it
    runs.  For a job submitted to an idle executor while [img] is
    current, and any captures [cs] arriving before a worker takes it, the
    OCR job runs the engine on the capture current after [cs] (on [img]
    itself when none of them succeeded), and the clipboard job, where the
    platform supports it and the transfer succeeds, puts that same
    capture on the clipboard. *)
Theorem jobs_read_image_current_when_run :
  forall (W : MainApplication.env) (s : MainApplication.t) (img : image)
         (cs : list (option image)),
    MainApplication.captured_image s = Some img ->
    MainApplication.pending s = [] ->
    map pytesseract.inv_image
        (pytesseract.invocations
           (MainApplication.tess
              (MainApplication.worker_run W
                 (MainApplication.captures cs
                    (snd (MainApplication.on_text_button s))))))
    = map pytesseract.inv_image
          (pytesseract.invocations (MainApplication.tess s))
      ++ [convert L (MainApplication.current_after cs img)]
    /\ (MainApplication.os_name W = "nt"%string ->
        MainApplication.put_dib W
          (MainApplication.dib_source (MainApplication.current_after cs img)) = Ok tt ->
        MainApplication.clipboard
          (MainApplication.worker_run W
             (MainApplication.captures cs
                (snd (MainApplication.on_image_button s))))
        = MainApplication.ClipDIB
            (MainApplication.dib_source (MainApplication.current_after cs img))).
Proof.
  intros W s img cs Himg Hpend.
  assert (Ht : MainApplication.on_text_button s
               = MainApplication.submit MainApplication.JobOcr s)
    by (unfold MainApplication.on_text_button, MainApplication.require_capture,
          bind, get; now rewrite Himg).
  assert (Hi : MainApplication.on_image_button s
               = MainApplication.submit MainApplication.JobCopyImage s)
    by (unfold MainApplication.on_image_button, MainApplication.require_capture,
          bind, get; now rewrite Himg).
  rewrite Ht, Hi. split.
  - destruct (submitted_job_runs_after_captures W MainApplication.JobOcr
                cs s img Himg Hpend) as (s2 & -> & Hc & Ht2 & _).
    cbn [MainApplication.run_job].
    rewrite (perform_ocr_reads_current_image W s2 _ Hc). now rewrite Ht2.
  - intros Hos Hput.
    destruct (submitted_job_runs_after_captures W MainApplication.JobCopyImage
                cs s img Himg Hpend) as (s2 & -> & Hc & _ & _).
    cbn [MainApplication.run_job].
    now apply copy_image_reads_current_image.
Qed.

Lemma jobs_read_image_current_when_run_witness :
  let A := Bitmap 1 RGB (640, 480) in
  let B := Bitmap 2 RGB (320, 200) in
  let s := MainApplication.worker_run working_world
             (snd (MainApplication.process_captured_image (Some A)
                     (MainApplication.initial [] [] None))) in
  map pytesseract.inv_image
      (pytesseract.invocations
         (MainApplication.tess
            (MainApplication.worker_run working_world
               (MainApplication.captures [None; Some B]
                  (snd (MainApplication.on_text_button s))))))
  = map pytesseract.inv_image
        (pytesseract.invocations (MainApplication.tess s))
    ++ [convert L (MainApplication.current_after [None; Some B] A)].
Proof.
  intros A B s.
  apply (jobs_read_image_current_when_run working_world s A [None; Some B]);
    reflexivity.
Defined.

(** ** Debounced rescaling *)

Section TimerFacts.
Import MainApplication.

Lemma set_tk_image_same s : set_tk_image (tk_image s) s = s.
Proof. now destruct s. Qed.

(** [resize_image] writes [tk_image] and nothing else. *)
Lemma resize_image_frame s :
  exists r tk, resize_image s = (r, set_tk_image tk s).
Proof.
  unfold resize_image, bind, get, modify, ret, lift.
  destruct (original_image s) as [orig|];
    [|exists (Ok tt), (tk_image s); now rewrite set_tk_image_same].
  destruct (label_size s) as [lw lh].
  destruct ((lw <=? 1) || (lh <=? 1));
    [exists (Ok tt), (tk_image s); now rewrite set_tk_image_same|].
  destruct (size orig) as [ow oh].
  destruct ((ow <=? lw) && (oh <=? lh)); [now exists (Ok tt), (Some orig)|].
  destruct (scaled_size (ow, oh) (lw, lh)) as [sz|e].
  - now exists (Ok tt), (Some (resize sz orig)).
  - exists (Raise e), (tk_image s); now rewrite set_tk_image_same.
Qed.




















Lemma run_events_app p : forall q s,
  run_events (p ++ q) s
  = (fst (run_events q (fst (run_events p s))),
     snd (run_events p s) ++ snd (run_events q (fst (run_events p s)))).
Proof.
  induction p as [|[t1 sz1] p IH]; intros q s; cbn.
  - now destruct (run_events q s).
  - destruct (configure t1 sz1 s) as [s1 l1]. rewrite IH.
    destruct (run_events p s1), (run_events q _). cbn.
    now rewrite app_assoc.
Qed.



End TimerFacts.




(** ** Float rounding *)

(** On these source extents and viewport extents the rounding defined in
    [PyFloat] and the Standard Library's binary64 compute the same
    quotient and the same product. *)
Example rounding_agrees_with_binary64 :
  PyFloat.agree_on_grid
    [1; 2; 3; 7; 49; 98; 103; 274; 640; 1024; 1366; 1920; 2599; 3098; 3840;
     65535; 123456789; 33554431]
    [2; 3; 5; 47; 453; 660; 744; 1024; 1270; 2349; 33554431]
  = true.
Proof. vm_compute. reflexivity. Qed.

(** [int(2599 * (453 / 2599))] is 452. *)
Example scale_loses_a_pixel :
  MainApplication.scaled_size (274, 2599) (744, 453) = Ok (47, 452).
Proof. vm_compute. reflexivity. Qed.

Section FloatFacts.
Import PyFloat.
Local Open Scope Q_scope.

Lemma pow2_pos e : 0 < pow2 e.
Proof. apply Qpower_0_lt. reflexivity. Qed.

Lemma pow2_add a b : pow2 (a + b) == pow2 a * pow2 b.
Proof. apply Qpower_plus. discriminate. Qed.

Lemma pow2_inject k : (0 <= k)%Z -> pow2 k == inject_Z (2 ^ k).
Proof.
  intros. unfold pow2. rewrite Zpower_Qpower by assumption. reflexivity.
Qed.

Lemma round_half_even_error y :
  inject_Z (round_half_even y) - y <= 1 # 2
  /\ y - inject_Z (round_half_even y) <= 1 # 2.
Proof.
  unfold round_half_even.
  pose proof (Qfloor_le y) as Hlo. pose proof (Qlt_floor y) as Hhi.
  rewrite inject_Z_plus in Hhi. change (inject_Z 1) with 1 in Hhi.
  destruct (Qcompare_spec (y - inject_Z (Qfloor y)) (1 # 2)) as [E|E|E];
    [destruct (Z.even (Qfloor y))| |];
    rewrite ?inject_Z_plus; change (inject_Z 1) with 1; split; lra.
Qed.

Lemma ilog2_le x : 0 < x -> pow2 (ilog2 x) <= x.
Proof.
  intros Hx. unfold ilog2.
  set (c := (Z.log2 (Qnum x) - Z.log2 (Zpos (Qden x)))%Z).
  destruct (Qle_bool (pow2 c) x) eqn:E; [now apply Qle_bool_iff|].
  clear E. destruct x as [n d]. cbn [Qnum Qden] in *.
  assert (Hn : (0 < n)%Z) by (unfold Qlt in Hx; cbn in Hx; lia).
  pose proof (Z.log2_spec n Hn) as [Hn1 _].
  pose proof (Z.log2_spec (Zpos d) eq_refl) as [_ Hd2].
  pose proof (Z.log2_nonneg n). pose proof (Z.log2_nonneg (Zpos d)).
  assert (Hs : pow2 (c - 1) * pow2 (Z.log2 (Zpos d) + 1) == pow2 (Z.log2 n)).
  { rewrite <- pow2_add. subst c. f_equiv. lia. }
  rewrite (pow2_inject (Z.log2 (Zpos d) + 1)), (pow2_inject (Z.log2 n))
    in Hs by lia.
  assert (Hd : inject_Z (Zpos d) <= inject_Z (2 ^ (Z.log2 (Zpos d) + 1)))
    by (rewrite <- Zle_Qle; lia).
  assert (Hnn : inject_Z (2 ^ Z.log2 n) <= inject_Z n)
    by (rewrite <- Zle_Qle; lia).
  pose proof (pow2_pos (c - 1)) as Hp.
  assert (Hq : pow2 (c - 1) * inject_Z (Zpos d) <= inject_Z n).
  { eapply Qle_trans; [|exact Hnn]. rewrite <- Hs.
    apply Qmult_le_l; assumption. }
  rewrite (Qmake_Qdiv n d). apply Qle_shift_div_l; [reflexivity | exact Hq].
Qed.

Lemma ilog2_lt x : 0 < x -> x < pow2 (ilog2 x + 1).
Proof.
  intros Hx. unfold ilog2.
  set (c := (Z.log2 (Qnum x) - Z.log2 (Zpos (Qden x)))%Z).
  destruct (Qle_bool (pow2 c) x) eqn:E.
  - clear E. destruct x as [n d]. cbn [Qnum Qden] in *.
    assert (Hn : (0 < n)%Z) by (unfold Qlt in Hx; cbn in Hx; lia).
    pose proof (Z.log2_spec n Hn) as [_ Hn2].
    pose proof (Z.log2_spec (Zpos d) eq_refl) as [Hd1 _].
    pose proof (Z.log2_nonneg n). pose proof (Z.log2_nonneg (Zpos d)).
    assert (Hs : pow2 (c + 1) * pow2 (Z.log2 (Zpos d))
                 == pow2 (Z.log2 n + 1)).
    { rewrite <- pow2_add. subst c. f_equiv. lia. }
    rewrite (pow2_inject (Z.log2 (Zpos d))), (pow2_inject (Z.log2 n + 1))
      in Hs by lia.
    assert (Hd : inject_Z (2 ^ Z.log2 (Zpos d)) <= inject_Z (Zpos d))
      by (rewrite <- Zle_Qle; lia).
    assert (Hnn : inject_Z n < inject_Z (2 ^ (Z.log2 n + 1)))
      by (rewrite <- Zlt_Qlt; lia).
    pose proof (pow2_pos (c + 1)) as Hp.
    assert (Hq : inject_Z n < pow2 (c + 1) * inject_Z (Zpos d)).
    { eapply Qlt_le_trans; [exact Hnn|]. rewrite <- Hs.
      apply Qmult_le_l; assumption. }
    rewrite (Qmake_Qdiv n d). apply Qlt_shift_div_r; [reflexivity | exact Hq].
  - replace (c - 1 + 1)%Z with c by lia.
    apply Qnot_le_lt. intros H. apply Qle_bool_iff in H. congruence.
Qed.

(** Rounding a positive number moves it by at most half a unit in the
    last place: a relative error of at most [u]. *)
Lemma rnd_pos_error x :
  0 < x ->
  (rnd_pos x - x) * inject_Z (2 ^ 53) <= x
  /\ (x - rnd_pos x) * inject_Z (2 ^ 53) <= x.
Proof.
  intros Hx. unfold rnd_pos.
  set (e := (ilog2 x - 52)%Z).
  pose proof (pow2_pos e) as He.
  pose proof (ilog2_le x Hx) as Hl.
  assert (Hs : pow2 (ilog2 x) == pow2 e * inject_Z (2 ^ 52)).
  { rewrite <- pow2_inject by lia. rewrite <- pow2_add. subst e. f_equiv. lia. }
  rewrite Hs in Hl.
  destruct (round_half_even_error (x / pow2 e)) as [H1 H2].
  set (m := inject_Z (round_half_even (x / pow2 e))) in *.
  assert (Hy : x / pow2 e * pow2 e == x) by (field; lra).
  set (y := x / pow2 e) in *. clearbody y m.
  change (inject_Z (2 ^ 53)) with (2 * inject_Z (2 ^ 52)).
  change (inject_Z (2 ^ 52)) with (4503599627370496 # 1) in *.
  generalize dependent (pow2 e). intros p He Hl Hp.
  split; nra.
Qed.

Lemma rnd_bounds x :
  0 < x -> x - x * u <= rnd x <= x + x * u.
Proof.
  intros Hx. unfold rnd.
  destruct (Qcompare_spec x 0) as [E|E|E]; try lra.
  destruct (rnd_pos_error x Hx) as [H1 H2].
  change (inject_Z (2 ^ 53)) with (9007199254740992 # 1) in *.
  unfold u. split; lra.
Qed.

Lemma pymin_spec x y :
  (PyFloat.min x y = x \/ PyFloat.min x y = y)
  /\ PyFloat.min x y <= x /\ PyFloat.min x y <= y.
Proof.
  unfold PyFloat.min.
  destruct (Qcompare_spec y x) as [E|E|E]; splits; auto; lra.
Qed.

(** The factor computed from the two rounded ratios is within [u] of the
    smaller exact ratio. *)
Lemma scale_factor_bounds q q' sf :
  0 < q -> q <= q' ->
  sf = PyFloat.min (rnd q) (rnd q') \/ sf = PyFloat.min (rnd q') (rnd q) ->
  q - q * u <= sf <= q + q * u.
Proof.
  intros Hq Hqq Hsf.
  pose proof (rnd_bounds q Hq) as B1.
  pose proof (rnd_bounds q' ltac:(lra)) as B2.
  assert (Hu : 0 < u < 1) by (unfold u; split; reflexivity).
  assert (Hlow : q - q * u <= q' - q' * u) by nra.
  destruct Hsf as [-> | ->].
  - destruct (pymin_spec (rnd q) (rnd q')) as ([-> | ->] & H1 & H2); lra.
  - destruct (pymin_spec (rnd q') (rnd q)) as ([-> | ->] & H1 & H2); lra.
Qed.

(** [n * sf], with [sf] within [u] of [q], is within [5u] of [n * q]. *)
Lemma mul_int_bounds n q sf :
  (0 < n)%Z -> 0 < q ->
  q - q * u <= sf <= q + q * u ->
  inject_Z n * q - 5 * u * (inject_Z n * q) <= mul_int n sf
  /\ mul_int n sf <= inject_Z n * q + 5 * u * (inject_Z n * q).
Proof.
  intros Hn Hq Hsf.
  assert (Hn' : 0 < inject_Z n) by (change 0 with (inject_Z 0); now rewrite <- Zlt_Qlt).
  unfold mul_int, float_of_int.
  pose proof (rnd_bounds (inject_Z n) Hn') as Bf.
  set (f := rnd (inject_Z n)) in *. clearbody f.
  assert (Hu : 0 < u /\ u <= 1 # 1000) by (unfold u; split; [reflexivity | discriminate]).
  assert (Hf : 0 < f) by nra.
  assert (Hs : 0 < sf) by nra.
  assert (Hx : 0 < f * sf) by nra.
  pose proof (rnd_bounds (f * sf) Hx) as Bp.
  set (p := rnd (f * sf)) in *. clearbody p.
  set (m := inject_Z n) in *. clearbody m.
  generalize dependent u. intros v Bf Hsf Hv Bp.
  assert (M0 : 0 <= m - m * v) by nra.
  assert (Q0 : 0 <= q - q * v) by nra.
  assert (X1 : f * sf <= (m + m * v) * (q + q * v)) by nra.
  assert (X2 : (m - m * v) * (q - q * v) <= f * sf) by nra.
  assert (T : 0 < m * q) by nra.
  set (t := m * q) in *.
  assert (Y1 : f * sf <= t + 3 * v * t)
    by (subst t; nra).
  assert (Y2 : t - 2 * v * t <= f * sf)
    by (subst t; nra).
  clearbody t. generalize dependent (f * sf). intros x Hx Bp X1 X2 Y1 Y2.
  split; nra.
Qed.

Lemma int_floor p : 0 <= p -> PyFloat.int p = Qfloor p.
Proof.
  destruct p as [n d]. unfold Qle; cbn. intros H.
  unfold PyFloat.int. cbn. apply Z.quot_div_nonneg; lia.
Qed.

(** A float [p] within [5u] of [t = NA / B], with [NA] below [2^50], has
    its integer part [K] within one [B] below [NA]. *)
Lemma floor_window (p t B NA K : Q) :
  0 < B -> 0 < t ->
  t * B == NA ->
  NA < 1125899906842624 # 1 ->
  t - 5 * u * t <= p -> p <= t + 5 * u * t ->
  K <= p -> p < K + 1 ->
  K * B < NA + 1 /\ NA - 1 < K * B + B.
Proof.
  intros HB Ht E HNA P1 P2 F1 F2.
  assert (Hu : u == 1 # 9007199254740992) by reflexivity.
  generalize dependent u. intros v P1 P2 Hv.
  assert (X1 : p * B <= t * B + 5 * v * (t * B)) by nra.
  assert (X2 : t * B - 5 * v * (t * B) <= p * B) by nra.
  assert (X3 : K * B <= p * B) by nra.
  assert (X4 : p * B < (K + 1) * B) by nra.
  split; nra.
Qed.

(** One axis of the scaled size.  [n] is the source extent on this axis,
    [a / b] the smaller of the two exact ratios, [sf] the factor the code
    computed.  The extent [k] the code obtains satisfies
    [n * a / b - 1 <= k <= n * a / b]. *)
Lemma scaled_extent n a b sf :
  (0 < n)%Z -> (0 < a)%Z -> (0 < b)%Z ->
  (n * a < 2 ^ 50)%Z ->
  inject_Z a / inject_Z b - inject_Z a / inject_Z b * u <= sf
  /\ sf <= inject_Z a / inject_Z b + inject_Z a / inject_Z b * u ->
  (n * a - b <= PyFloat.int (mul_int n sf) * b <= n * a)%Z.
Proof.
  intros Hn Ha Hb Hna Hsf.
  assert (Hn' : 0 < inject_Z n) by (change 0 with (inject_Z 0); now rewrite <- Zlt_Qlt).
  assert (Ha' : 0 < inject_Z a) by (change 0 with (inject_Z 0); now rewrite <- Zlt_Qlt).
  assert (Hb' : 0 < inject_Z b) by (change 0 with (inject_Z 0); now rewrite <- Zlt_Qlt).
  assert (Hq : 0 < inject_Z a / inject_Z b) by (apply Qlt_shift_div_l; lra).
  destruct (mul_int_bounds n _ sf Hn Hq Hsf) as [P1 P2].
  assert (Ht : inject_Z n * (inject_Z a / inject_Z b) * inject_Z b
               == inject_Z (n * a)).
  { rewrite inject_Z_mult. field. lra. }
  assert (Ht0 : 0 < inject_Z n * (inject_Z a / inject_Z b)) by nra.
  assert (Hna' : inject_Z (n * a) < 1125899906842624 # 1)
    by (change (1125899906842624 # 1) with (inject_Z (2 ^ 50));
        now rewrite <- Zlt_Qlt).
  assert (Hp0 : 0 <= mul_int n sf).
  { assert (Hu : u == 1 # 9007199254740992) by reflexivity. nra. }
  rewrite (int_floor _ Hp0).
  pose proof (Qfloor_le (mul_int n sf)) as F1.
  pose proof (Qlt_floor (mul_int n sf)) as F2.
  rewrite inject_Z_plus in F2. change (inject_Z 1) with 1 in F2.
  destruct (floor_window _ _ _ _ _ Hb' Ht0 Ht Hna' P1 P2 F1 F2) as [U1 U2].
  set (k := Qfloor (mul_int n sf)) in *. clearbody k.
  assert (V1 : inject_Z (k * b) < inject_Z (n * a + 1))
    by (rewrite inject_Z_mult, inject_Z_plus; exact U1).
  assert (V2 : inject_Z (n * a + -1) < inject_Z (k * b + b))
    by (rewrite !inject_Z_plus, inject_Z_mult; exact U2).
  rewrite <- Zlt_Qlt in V1, V2. lia.
Qed.

Lemma ratio_le a b c d :
  (0 < b)%Z -> (0 < d)%Z -> (a * d <= c * b)%Z ->
  inject_Z a / inject_Z b <= inject_Z c / inject_Z d.
Proof.
  intros Hb Hd H.
  assert (Hb' : 0 < inject_Z b) by (change 0 with (inject_Z 0); now rewrite <- Zlt_Qlt).
  assert (Hd' : 0 < inject_Z d) by (change 0 with (inject_Z 0); now rewrite <- Zlt_Qlt).
  rewrite Zle_Qle, !inject_Z_mult in H.
  apply Qle_shift_div_l; [exact Hd'|].
  assert (E : inject_Z a / inject_Z b * inject_Z d
              == inject_Z a * inject_Z d / inject_Z b) by (field; lra).
  rewrite E. apply Qle_shift_div_r; assumption.
Qed.

Lemma ratio_pos a b : (0 < a)%Z -> (0 < b)%Z -> 0 < inject_Z a / inject_Z b.
Proof.
  intros Ha Hb. apply Qlt_shift_div_l.
  - change 0 with (inject_Z 0); now rewrite <- Zlt_Qlt.
  - rewrite Qmult_0_l. change 0 with (inject_Z 0); now rewrite <- Zlt_Qlt.
Qed.
End FloatFacts.

(** The size [resize_image] scales to.  [(a, b)] is the axis with the
    smaller ratio viewport / source: viewport extent [a], source extent
    [b].  Both new extents are within one pixel of the source extent
    times [a / b] (written without division), at least 1, and within the
    viewport. *)
Lemma scaled_size_spec ow oh lw lh :
  MainApplication.dimension ow -> MainApplication.dimension oh ->
  MainApplication.dimension lw -> MainApplication.dimension lh ->
  exists nw nh,
    MainApplication.scaled_size (ow, oh) (lw, lh) = Ok (nw, nh)
    /\ 1 <= nw <= lw /\ 1 <= nh <= lh
    /\ (lw * oh <= lh * ow ->
        ow * lw - ow <= nw * ow <= ow * lw + ow
        /\ oh * lw - ow <= nh * ow <= oh * lw + ow)
    /\ (lh * ow <= lw * oh ->
        ow * lh - oh <= nw * oh <= ow * lh + oh
        /\ oh * lh - oh <= nh * oh <= oh * lh + oh).
Proof.
  unfold MainApplication.dimension at 1 2 3 4. intros How Hoh Hlw Hlh.
  unfold MainApplication.scaled_size, PyFloat.truediv.
  replace (ow =? 0) with false by (symmetry; apply Z.eqb_neq; lia).
  replace (oh =? 0) with false by (symmetry; apply Z.eqb_neq; lia).
  set (sf := PyFloat.min (PyFloat.rnd (inject_Z lw / inject_Z ow))
                         (PyFloat.rnd (inject_Z lh / inject_Z oh))).
  assert (B : forall n, MainApplication.dimension n ->
              forall a b, MainApplication.dimension a ->
                          MainApplication.dimension b -> n * a < 2 ^ 50).
  { unfold MainApplication.dimension. intros. nia. }
  assert (W : lw * oh <= lh * ow ->
              forall n, MainApplication.dimension n ->
                n * lw - ow <= PyFloat.int (PyFloat.mul_int n sf) * ow <= n * lw).
  { intros Hle n Hn.
    apply scaled_extent; try (unfold MainApplication.dimension in *; lia).
    - apply (B n Hn lw ow); assumption.
    - apply (scale_factor_bounds _ (inject_Z lh / inject_Z oh)).
      + apply ratio_pos; lia.
      + apply ratio_le; lia.
      + now left. }
  assert (H : lh * ow <= lw * oh ->
              forall n, MainApplication.dimension n ->
                n * lh - oh <= PyFloat.int (PyFloat.mul_int n sf) * oh <= n * lh).
  { intros Hle n Hn.
    apply scaled_extent; try (unfold MainApplication.dimension in *; lia).
    - apply (B n Hn lh oh); assumption.
    - apply (scale_factor_bounds _ (inject_Z lw / inject_Z ow)).
      + apply ratio_pos; lia.
      + apply ratio_le; lia.
      + now right. }
  clearbody sf.
  set (kw := PyFloat.int (PyFloat.mul_int ow sf)) in *.
  set (kh := PyFloat.int (PyFloat.mul_int oh sf)) in *.
  exists (Z.max 1 kw), (Z.max 1 kh).
  split; [reflexivity|].
  assert (Wfit : lw * oh <= lh * ow -> kw <= lw /\ kh <= lh).
  { intros Hle. pose proof (W Hle ow How). pose proof (W Hle oh Hoh).
    fold kw in H0. fold kh in H1. split; nia. }
  assert (Hfit : lh * ow <= lw * oh -> kw <= lw /\ kh <= lh).
  { intros Hle. pose proof (H Hle ow How). pose proof (H Hle oh Hoh).
    fold kw in H0. fold kh in H1. split; nia. }
  assert (Fit : kw <= lw /\ kh <= lh)
    by (destruct (Z.le_ge_cases (lw * oh) (lh * ow)); auto;
        apply Hfit; lia).
  splits; try lia.
  - intros Hle. pose proof (W Hle ow How). pose proof (W Hle oh Hoh).
    fold kw in H0. fold kh in H1. split; nia.
  - intros Hle. pose proof (H Hle ow How). pose proof (H Hle oh Hoh).
    fold kw in H0. fold kh in H1. split; nia.
Qed.


(** The earlier revision has no floor of one pixel: a 1000x1 source in a
    2x2 viewport is resized to height 0. *)
Example scaled_size_V1_0_reaches_zero :
  MainApplication.scaled_size_V1_0 (1000, 1) (2, 2) = Ok (Some (2, 0))
  /\ MainApplication.scaled_size (1000, 1) (2, 2) = Ok (2, 1).
Proof. vm_compute. split; reflexivity. Qed.



(** ** More on region selection *)

(** X1. Whatever the release point and whatever the grabber does (returns
    an image or raises), the V1.1 handler withdraws the overlay before
    anything else, makes at most one grab, destroys the overlay, and
    calls the completion callback exactly once, as its last action, with
    the image it stored. *)
Theorem on_button_release_protocol :
  forall (screenshot : ScreenCapturer.region -> result image)
         (self : ScreenCapturer.t) (end_x end_y : Z),
    let r := ScreenCapturer.on_button_release screenshot self end_x end_y in
    exists middle,
      snd r = ScreenCapturer.Withdraw :: middle
              ++ [ScreenCapturer.Destroy;
                  ScreenCapturer.Callback (ScreenCapturer.captured_image (fst r))]
      /\ filter ScreenCapturer.is_callback middle = []
      /\ filter ScreenCapturer.is_destroy middle = []
      /\ (List.length
            (filter (fun e => match e with
                              | ScreenCapturer.Screenshot _ => true
                              | _ => false
                              end) middle) <= 1)%nat.
Proof.
  intros screenshot self end_x end_y r. subst r.
  unfold ScreenCapturer.on_button_release.
  destruct (ScreenCapturer.selection_rectangle self end_x end_y)
    as [[[x y] w] h].
  destruct ((0 <? w) && (0 <? h)); [destruct (screenshot (x, y, w, h)) as [i|e]|];
    cbn.
  - exists [ScreenCapturer.Screenshot (x, y, w, h)]. cbn. auto.
  - exists [ScreenCapturer.Screenshot (x, y, w, h);
            ScreenCapturer.Print ("Error during screenshot: " ++ str e)].
    cbn. auto.
  - exists []. cbn. auto.
Qed.

(** X2. The callback of V1.1 receives an image exactly when the selected
    rectangle has positive width and height and the grab of that
    rectangle succeeded, and then it is the image the grabber returned. *)
Theorem callback_image_iff_grab_succeeded :
  forall (screenshot : ScreenCapturer.region -> result image)
         (self : ScreenCapturer.t) (end_x end_y : Z) (img : image),
    ScreenCapturer.callbacks
      (snd (ScreenCapturer.on_button_release screenshot self end_x end_y))
    = [Some img]
    <->
    (0 < Z.abs (ScreenCapturer.start_x self - end_x)
     /\ 0 < Z.abs (ScreenCapturer.start_y self - end_y)
     /\ screenshot (ScreenCapturer.selection_rectangle self end_x end_y)
        = Ok img).
Proof.
  intros screenshot self end_x end_y img.
  unfold ScreenCapturer.on_button_release.
  assert (E : ScreenCapturer.selection_rectangle self end_x end_y
              = (Z.min (ScreenCapturer.start_x self) end_x,
                 Z.min (ScreenCapturer.start_y self) end_y,
                 Z.abs (ScreenCapturer.start_x self - end_x),
                 Z.abs (ScreenCapturer.start_y self - end_y))).
  { unfold ScreenCapturer.selection_rectangle. repeat f_equal; lia. }
  rewrite E.
  set (w := Z.abs (ScreenCapturer.start_x self - end_x)).
  set (h := Z.abs (ScreenCapturer.start_y self - end_y)).
  destruct (0 <? w) eqn:Hw, (0 <? h) eqn:Hh; cbn;
    try apply Z.ltb_lt in Hw; try apply Z.ltb_lt in Hh;
    try apply Z.ltb_ge in Hw; try apply Z.ltb_ge in Hh.
  - destruct (screenshot _) as [i|e]; cbn; split.
    + intros H. inversion H. auto.
    + intros (_ & _ & H). inversion H. reflexivity.
    + discriminate.
    + intros (_ & _ & H). discriminate H.
  - split; [discriminate | lia].
  - split; [discriminate | lia].
  - split; [discriminate | lia].
Qed.

(** X3. In V1.0, when the grabber raises, the handler is left at the
    grab: the overlay has been withdrawn but is never destroyed, and the
    completion callback is never called. *)
Theorem on_button_release_V1_0_abandons_on_error :
  forall (screenshot : ScreenCapturer.region -> result image)
         (self : ScreenCapturer.t) (end_x end_y : Z) (e : exn),
    screenshot (ScreenCapturer.selection_rectangle self end_x end_y) = Raise e ->
    fst (ScreenCapturer.on_button_release_V1_0 screenshot self end_x end_y)
    = Raise e
    /\ ScreenCapturer.callbacks
         (snd (ScreenCapturer.on_button_release_V1_0 screenshot self end_x end_y))
       = []
    /\ filter ScreenCapturer.is_destroy
         (snd (ScreenCapturer.on_button_release_V1_0 screenshot self end_x end_y))
       = []
    /\ In ScreenCapturer.Withdraw
         (snd (ScreenCapturer.on_button_release_V1_0 screenshot self end_x end_y)).
Proof.
  intros screenshot self end_x end_y e H.
  unfold ScreenCapturer.on_button_release_V1_0. rewrite H. cbn. auto.
Qed.

Lemma on_button_release_V1_0_abandons_on_error_witness :
  let screenshot := fun _ : ScreenCapturer.region =>
                      @Raise image (Exception "screen grab failed") in
  let self := ScreenCapturer.on_button_press
                (ScreenCapturer.mk 0 0 None) 10 10 in
  ScreenCapturer.callbacks
    (snd (ScreenCapturer.on_button_release_V1_0 screenshot self 60 50)) = [].
Proof.
  intros screenshot self.
  apply (on_button_release_V1_0_abandons_on_error screenshot self 60 50
           (Exception "screen grab failed")).
  reflexivity.
Defined.

(** X4. The rectangle drawn while dragging covers the region a release
    at the same pointer position would select: with the pointer at
    canvas position [(x, y)], hence at screen position
    [(x + rootx, y + rooty)], the drawn corners span exactly
    [selection_rectangle]. *)
Theorem drag_feedback_covers_selection :
  forall (self : ScreenCapturer.t) (rootx rooty x y : Z),
    ScreenCapturer.covered rootx rooty
      (ScreenCapturer.on_mouse_drag self rootx rooty x y)
    = ScreenCapturer.selection_rectangle self (x + rootx) (y + rooty).
Proof.
  intros self rootx rooty x y.
  unfold ScreenCapturer.covered, ScreenCapturer.on_mouse_drag,
    ScreenCapturer.selection_rectangle. cbv zeta.
  f_equal; [f_equal; [f_equal|]|]; lia.
Qed.

(** ** Outcomes of the two jobs *)

Section JobOutcomes.
Import MainApplication.
Variable W : env.

Ltac run_job_body :=
  unfold perform_ocr, copy_image_to_clipboard, try_except, bind, get,
    modify, raise, ret, lift, in_tess, _show_message_from_ui_texts,
    OCRProcessor.init, OCRProcessor.extract_text,
    pytesseract.image_to_string, pytesseract.set_tesseract_cmd;
  cbn.

Lemma selected_language_fold (var : string) (opts l : list (string * string)) :
  forall acc,
    fold_left (fun code (_ : string * string) =>
                 match lookup var opts with
                 | Some c => c
                 | None => code
                 end) l acc
    = match l, lookup var opts with
      | _ :: _, Some c => c
      | _, _ => acc
      end.
Proof.
  induction l as [|a l IH]; intros acc; cbn; [reflexivity|].
  rewrite IH. destruct l, (lookup var opts); reflexivity.
Qed.
End JobOutcomes.

(** X5. The loop by which V1.1 finds the OCR language code computes what
    V1.0's [dict.get] with default does: the code of the selected display
    name, or ['tur'] when the name is not a key. *)
Theorem selected_language_is_lookup_with_default :
  forall (s : MainApplication.t),
    MainApplication.selected_language s
    = MainApplication.selected_language_V1_0 s.
Proof.
  intros s.
  unfold MainApplication.selected_language,
    MainApplication.selected_language_V1_0.
  rewrite selected_language_fold.
  destruct (MainApplication.language_options s) as [|[k v] l] eqn:E;
    [reflexivity|].
  destruct (MainApplication.lookup _ _); reflexivity.
Qed.

(** X6. Whatever its outcome, an OCR job run with an image captured
    makes exactly one engine run, at the configured path when the
    configuration holds a non-empty one, and leaves that path in
    [pytesseract.pytesseract.tesseract_cmd]: the module global is
    overwritten for good, not restored. *)
Theorem perform_ocr_installs_configured_path :
  forall (W : MainApplication.env) (s : MainApplication.t) (img : image),
    MainApplication.captured_image s = Some img ->
    pytesseract.tesseract_cmd
      (MainApplication.tess (snd (MainApplication.perform_ocr W s)))
    = MainApplication.cmd_for s
    /\ pytesseract.invocations
         (MainApplication.tess (snd (MainApplication.perform_ocr W s)))
       = pytesseract.invocations (MainApplication.tess s)
         ++ [pytesseract.mk_invocation (MainApplication.cmd_for s)
               (convert L img) (MainApplication.selected_language s)
               "--oem 1 --psm 6"].
Proof.
  intros W s img Himg.
  destruct s as [cap tk orig rj lv lo cfg ls li ib tb nw tms nid pend ts clip msgs].
  cbn in Himg. subst.
  unfold MainApplication.cmd_for. cbn.
  unfold MainApplication.perform_ocr, try_except, bind, get, modify, ret,
    MainApplication.lift, MainApplication.in_tess,
    MainApplication._show_message_from_ui_texts,
    OCRProcessor.init, OCRProcessor.extract_text,
    pytesseract.image_to_string, pytesseract.set_tesseract_cmd.
  cbn.
  destruct cfg as [p|]; [destruct (String.eqb p "")|];
    cbn; unfold bind, modify, ret; cbn;
    repeat match goal with
           | |- context [match ?x with _ => _ end] =>
               lazymatch x with
               | context [match _ with _ => _ end] => fail
               | _ => destruct x eqn:?; cbn
               end
           end; split; reflexivity.
Qed.

Lemma perform_ocr_installs_configured_path_witness :
  let s := MainApplication.worker_run working_world
             (snd (MainApplication.process_captured_image
                     (Some (Bitmap 1 RGB (640, 480)))
                     (MainApplication.initial ["Turkish"; "English"]%string
                        [("Turkish", "tur"); ("English", "eng")]%string
                        (Some "/usr/bin/tesseract"%string)))) in
  pytesseract.tesseract_cmd
    (MainApplication.tess (snd (MainApplication.perform_ocr failing_world s)))
  = "/usr/bin/tesseract"%string.
Proof.
  intros s.
  apply (perform_ocr_installs_configured_path failing_world s
           (Bitmap 1 RGB (640, 480))).
  reflexivity.
Defined.

(** X7. What the user sees of an OCR job run with an image captured.
    When the engine returns a text and the clipboard accepts it, the
    clipboard holds that text and the "text copied" box is shown.  When
    either step raises, the clipboard is untouched and one error box is
    shown: the "Tesseract not found" box for [TesseractNotFoundError],
    and the generic OCR error box carrying [str(e)] for anything else. *)
Theorem perform_ocr_outcome :
  forall (W : MainApplication.env) (s : MainApplication.t) (img : image),
    MainApplication.captured_image s = Some img ->
    let s' := snd (MainApplication.perform_ocr W s) in
    match pytesseract.run_ocr (MainApplication.engine W)
            (MainApplication.cmd_for s) (convert L img)
            (MainApplication.selected_language s) "--oem 1 --psm 6" with
    | Ok text =>
        match MainApplication.pyperclip_copy W text with
        | Ok _ =>
            MainApplication.clipboard s' = MainApplication.ClipText text
            /\ MainApplication.messages s'
               = MainApplication.messages s
                 ++ [MainApplication.info "info_text_copied"]
        | Raise e =>
            MainApplication.clipboard s' = MainApplication.clipboard s
            /\ MainApplication.messages s'
               = MainApplication.messages s ++ [MainApplication.ocr_failure e]
        end
    | Raise e =>
        MainApplication.clipboard s' = MainApplication.clipboard s
        /\ MainApplication.messages s'
           = MainApplication.messages s ++ [MainApplication.ocr_failure e]
    end.
Proof.
  intros W s img Himg s'. subst s'.
  destruct s as [cap tk orig rj lv lo cfg ls li ib tb nw tms nid pend ts clip msgs].
  cbn in Himg. subst.
  unfold MainApplication.cmd_for. cbn.
  unfold MainApplication.perform_ocr, try_except, bind, get, modify, ret,
    MainApplication.lift, MainApplication.in_tess,
    MainApplication._show_message_from_ui_texts,
    OCRProcessor.init, OCRProcessor.extract_text,
    pytesseract.image_to_string, pytesseract.set_tesseract_cmd.
  cbn.
  destruct cfg as [p|]; [destruct (String.eqb p "")|];
    cbn; unfold bind, modify, ret; cbn;
    (destruct (pytesseract.run_ocr _ _ _ _ _) as [text|[|m]]; cbn;
     [destruct (MainApplication.pyperclip_copy W text) as [[]|[|m]]; cbn|..]);
    split; reflexivity.
Qed.

Lemma perform_ocr_outcome_witness :
  let s := MainApplication.worker_run working_world
             (snd (MainApplication.process_captured_image
                     (Some (Bitmap 1 RGB (640, 480)))
                     (MainApplication.initial [] [] None))) in
  MainApplication.clipboard (snd (MainApplication.perform_ocr failing_world s))
  = MainApplication.clipboard s
  /\ MainApplication.messages
       (snd (MainApplication.perform_ocr failing_world s))
     = MainApplication.messages s
       ++ [MainApplication.ocr_failure TesseractNotFoundError].
Proof.
  intros s.
  exact (perform_ocr_outcome failing_world s (Bitmap 1 RGB (640, 480)) eq_refl).
Defined.



(** ** More on scaling for display *)

(** The display image [resize_image] computes from a source and a
    viewport more than 1 pixel wide and high, when it computes one. *)
Lemma resize_image_result (s : MainApplication.t) (orig : image) (lw lh : Z) :
  MainApplication.original_image s = Some orig ->
  MainApplication.label_size s = (lw, lh) ->
  1 < lw -> 1 < lh ->
  MainApplication.resize_image s
  = if (fst (size orig) <=? lw) && (snd (size orig) <=? lh)
    then (Ok tt, MainApplication.set_tk_image (Some orig) s)
    else match MainApplication.scaled_size (size orig) (lw, lh) with
         | Ok sz => (Ok tt, MainApplication.set_tk_image
                              (Some (resize sz orig)) s)
         | Raise e => (Raise e, s)
         end.
Proof.
  intros Horig Hl Hw Hh.
  unfold MainApplication.resize_image, bind, get. rewrite Horig, Hl.
  replace ((lw <=? 1) || (lh <=? 1)) with false
    by (symmetry; apply orb_false_iff; split; apply Z.leb_gt; lia).
  destruct (size orig) as [ow oh]. cbn [fst snd].
  destruct ((ow <=? lw) && (oh <=? lh)); [reflexivity|].
  unfold MainApplication.lift, modify, ret.
  destruct (MainApplication.scaled_size (ow, oh) (lw, lh)); reflexivity.
Qed.

(** X9. Every display image is rebuilt from the original capture, never
    from an earlier display image: for a source with positive extents,
    rescaling for a viewport [sz1] and then for a viewport [sz2] gives the
    display image that rescaling for [sz2] alone gives. *)
Theorem rescale_does_not_accumulate :
  forall (s : MainApplication.t) (orig : image) (sz1 sz2 : Z * Z),
    MainApplication.original_image s = Some orig ->
    0 < fst (size orig) -> 0 < snd (size orig) ->
    1 < fst sz2 -> 1 < snd sz2 ->
    MainApplication.tk_image
      (snd (MainApplication.resize_image
              (MainApplication.set_label_size sz2
                 (snd (MainApplication.resize_image
                         (MainApplication.set_label_size sz1 s))))))
    = MainApplication.tk_image
        (snd (MainApplication.resize_image
                (MainApplication.set_label_size sz2 s))).
Proof.
  intros s orig sz1 [lw lh] Horig How Hoh Hw Hh. cbn [fst snd] in *.
  destruct (resize_image_frame (MainApplication.set_label_size sz1 s))
    as (r & tk & E). rewrite E. cbn [snd].
  assert (Hno : forall e, MainApplication.scaled_size (size orig) (lw, lh)
                          <> Raise e).
  { intros e. unfold MainApplication.scaled_size, PyFloat.truediv.
    destruct (size orig) as [ow oh]. cbn [fst snd] in *.
    replace (ow =? 0) with false by (symmetry; apply Z.eqb_neq; lia).
    replace (oh =? 0) with false by (symmetry; apply Z.eqb_neq; lia).
    discriminate. }
  rewrite (resize_image_result _ orig lw lh), (resize_image_result _ orig lw lh);
    try lia; try (destruct s; cbn in *; auto; fail).
  destruct ((fst (size orig) <=? lw) && (snd (size orig) <=? lh)).
  - destruct s; reflexivity.
  - destruct (MainApplication.scaled_size (size orig) (lw, lh)) as [sz|e].
    + destruct s; reflexivity.
    + now destruct (Hno e).
Qed.

Lemma rescale_does_not_accumulate_witness :
  let orig := Bitmap 1 RGB (1600, 900) in
  let s := MainApplication.set_original_image (Some orig)
             (MainApplication.initial [] [] None) in
  MainApplication.tk_image
    (snd (MainApplication.resize_image
            (MainApplication.set_label_size (1270, 660)
               (snd (MainApplication.resize_image
                       (MainApplication.set_label_size (320, 200) s))))))
  = MainApplication.tk_image
      (snd (MainApplication.resize_image
              (MainApplication.set_label_size (1270, 660) s))).
Proof.
  intros orig s.
  apply (rescale_does_not_accumulate s orig (320, 200) (1270, 660));
    cbn; try reflexivity; lia.
Defined.

(** X10. A source with an extent of 0 that exceeds the viewport on its
    other axis makes [resize_image] raise [ZeroDivisionError]; nothing has
    been changed at that point. *)
Theorem resize_image_zero_extent_raises :
  forall (s : MainApplication.t) (orig : image) (ow oh lw lh : Z),
    MainApplication.original_image s = Some orig ->
    size orig = (ow, oh) ->
    MainApplication.label_size s = (lw, lh) ->
    1 < lw -> 1 < lh ->
    (ow = 0 /\ lh < oh) \/ (oh = 0 /\ lw < ow) ->
    MainApplication.resize_image s
    = (Raise (Exception "division by zero"), s).
Proof.
  intros s orig ow oh lw lh Horig Hsz Hl Hw Hh Hz.
  rewrite (resize_image_result s orig lw lh Horig Hl Hw Hh), Hsz.
  cbn [fst snd].
  replace ((ow <=? lw) && (oh <=? lh)) with false
    by (symmetry; apply andb_false_iff;
        destruct Hz as [[-> H] | [-> H]]; [right | left]; apply Z.leb_gt; lia).
  unfold MainApplication.scaled_size, PyFloat.truediv.
  destruct Hz as [[-> H] | [-> H]]; cbn [Z.eqb]; [reflexivity|].
  replace (ow =? 0) with false by (symmetry; apply Z.eqb_neq; lia).
  reflexivity.
Qed.

Lemma resize_image_zero_extent_raises_witness :
  let orig := Bitmap 1 RGB (0, 900) in
  let s := MainApplication.set_label_size (1270, 660)
             (MainApplication.set_original_image (Some orig)
                (MainApplication.initial [] [] None)) in
  MainApplication.resize_image s
  = (Raise (Exception "division by zero"), s).
Proof.
  intros orig s.
  apply (resize_image_zero_extent_raises s orig 0 900 1270 660);
    try reflexivity; lia.
Defined.

(** ** More on path validation *)



(** A ratio of a smaller to a larger extent still rounds below 1. *)
Lemma ratio_rounds_below_one (a b : Z) :
  0 < a -> a < b -> b < 2 ^ 25 ->
  (PyFloat.rnd (inject_Z a / inject_Z b) < 1)%Q.
Proof.
  intros Ha Hab Hb.
  assert (Hb' : (0 < inject_Z b)%Q)
    by (change 0%Q with (inject_Z 0); rewrite <- Zlt_Qlt; lia).
  assert (Ha' : (0 < inject_Z a)%Q)
    by (change 0%Q with (inject_Z 0); now rewrite <- Zlt_Qlt).
  pose proof (rnd_bounds _ (ratio_pos a b Ha ltac:(lia))) as [_ Hr].
  assert (E : (inject_Z a / inject_Z b * inject_Z b == inject_Z a)%Q)
    by (field; lra).
  assert (Hle : (inject_Z a + 1 <= inject_Z b)%Q).
  { change 1%Q with (inject_Z 1). rewrite <- inject_Z_plus, <- Zle_Qle. lia. }
  assert (Hsmall : (inject_Z a < 33554432 # 1)%Q).
  { change (33554432 # 1)%Q with (inject_Z (2 ^ 25)). rewrite <- Zlt_Qlt. lia. }
  eapply Qle_lt_trans; [exact Hr|].
  apply (Qmult_lt_r _ _ (inject_Z b) Hb').
  set (q := (inject_Z a / inject_Z b)%Q) in *. clearbody q.
  assert (Hu : (PyFloat.u == 1 # 9007199254740992)%Q) by reflexivity.
  generalize dependent PyFloat.u. intros v _ Hv.
  nra.
Qed.

(** X13. In V1.0 the test [scale_factor < 1] that guards the resize is
    always true where it is reached: for a source larger than the viewport
    on some axis (extents positive and below [2^25]) V1.0 always resizes,
    and V1.1, which dropped the test, resizes to the same size with each
    extent raised to at least 1. *)
Theorem scale_factor_test_is_always_true :
  forall ow oh lw lh : Z,
    MainApplication.dimension ow -> MainApplication.dimension oh ->
    MainApplication.dimension lw -> MainApplication.dimension lh ->
    lw < ow \/ lh < oh ->
    exists w h,
      MainApplication.scaled_size_V1_0 (ow, oh) (lw, lh) = Ok (Some (w, h))
      /\ MainApplication.scaled_size (ow, oh) (lw, lh)
         = Ok (Z.max 1 w, Z.max 1 h).
Proof.
  unfold MainApplication.dimension.
  intros ow oh lw lh How Hoh Hlw Hlh Hlarger.
  unfold MainApplication.scaled_size_V1_0, MainApplication.scaled_size,
    PyFloat.truediv.
  replace (ow =? 0) with false by (symmetry; apply Z.eqb_neq; lia).
  replace (oh =? 0) with false by (symmetry; apply Z.eqb_neq; lia).
  set (sf := PyFloat.min (PyFloat.rnd (inject_Z lw / inject_Z ow))
                         (PyFloat.rnd (inject_Z lh / inject_Z oh))).
  assert (Hsf : (sf < 1)%Q).
  { destruct (pymin_spec (PyFloat.rnd (inject_Z lw / inject_Z ow))
                (PyFloat.rnd (inject_Z lh / inject_Z oh))) as (_ & H1 & H2).
    fold sf in H1, H2.
    destruct Hlarger as [H | H].
    - eapply Qle_lt_trans; [exact H1|]. apply ratio_rounds_below_one; lia.
    - eapply Qle_lt_trans; [exact H2|]. apply ratio_rounds_below_one; lia. }
  clearbody sf.
  destruct (Qcompare_spec sf 1) as [H | H | H]; try lra.
  eexists _, _. split; reflexivity.
Qed.

Lemma scale_factor_test_is_always_true_witness :
  exists w h,
    MainApplication.scaled_size_V1_0 (1600, 900) (1270, 660) = Ok (Some (w, h))
    /\ MainApplication.scaled_size (1600, 900) (1270, 660)
       = Ok (Z.max 1 w, Z.max 1 h).
Proof.
  apply (scale_factor_test_is_always_true 1600 900 1270 660);
    unfold MainApplication.dimension; lia.
Defined.

(** ** Invariants over all handlers *)

Section EventFacts.
Import MainApplication.
Variable W : env.

(** Timer callbacks touch the display image, the label, the timer queue
    and the clock only. *)
Lemma fire_job_view tm s : job_view (fire tm s) = job_view s.
Proof.
  unfold fire. destruct (fn tm); cbn [call].
  - unfold debounced_resize_and_update_image, resize_and_update_image, bind.
    match goal with
    | |- context [resize_image ?s0] =>
        destruct (resize_image_frame s0) as (r & tk & E); rewrite E
    end.
    destruct s; destruct r as [[]|e]; cbn; [|reflexivity].
    destruct tk; reflexivity.
  - destruct s; reflexivity.
Qed.

Lemma run_timers_job_view fuel : forall T s,
  job_view (fst (run_timers fuel T s)) = job_view s.
Proof.
  induction fuel as [|fuel IH]; intros T s; cbn; [reflexivity|].
  destruct (next_timer (timers s)) as [tm|]; [|reflexivity].
  destruct (due tm <=? T); [|reflexivity].
  specialize (IH T (fire tm s)).
  destruct (run_timers fuel T (fire tm s)) as [s' l]. cbn [fst] in *.
  now rewrite IH, fire_job_view.
Qed.

Lemma mainloop_job_view T s : job_view (fst (mainloop_until T s)) = job_view s.
Proof.
  unfold mainloop_until.
  pose proof (run_timers_job_view (2 * List.length (timers s)) T s) as H.
  destruct (run_timers _ T s) as [s' l]. cbn [fst] in *.
  rewrite <- H. now destruct s'.
Qed.

Lemma on_window_resize_job_view s :
  job_view (snd (on_window_resize s)) = job_view s.
Proof.
  unfold on_window_resize, bind, get.
  destruct s as [cap tk orig rj lv lo cfg ls li ib tb nw tms nid pend ts clip msgs].
  cbn. destruct orig; [|reflexivity]. destruct rj; reflexivity.
Qed.

Lemma configure_job_view T sz s :
  job_view (fst (configure T sz s)) = job_view s.
Proof.
  unfold configure.
  pose proof (mainloop_job_view T s) as H.
  destruct (mainloop_until T s) as [s1 l]. cbn [fst] in *.
  rewrite on_window_resize_job_view, <- H. now destruct s1.
Qed.

(** A worker's job changes neither the capture nor the buttons. *)
Lemma worker_run_keeps_capture s :
  captured_image (worker_run W s) = captured_image s
  /\ original_image (worker_run W s) = original_image s
  /\ image_button (worker_run W s) = image_button s
  /\ text_button (worker_run W s) = text_button s.
Proof.
  unfold worker_run. destruct (pending s) as [|j rest] eqn:Ep; [auto|].
  assert (F : forall s0, captured_image (set_pending rest s0) = captured_image s0
                         /\ original_image (set_pending rest s0) = original_image s0
                         /\ image_button (set_pending rest s0) = image_button s0
                         /\ text_button (set_pending rest s0) = text_button s0)
    by (intros s0; now destruct s0).
  destruct (F s) as (F1 & F2 & F3 & F4). rewrite <- F1, <- F2, <- F3, <- F4.
  generalize (set_pending rest s). clear. intros s.
  destruct j as [img| |]; cbn [run_job].
  - unfold display_captured_image, bind.
    destruct (resize_image_frame s) as (r & tk & E). rewrite E.
    destruct s; destruct r as [[]|e]; cbn; auto.
  - pose proof (proj2 (copy_image_to_clipboard_frame W s)) as H.
    unfold controller_view in H. inversion H. auto.
  - pose proof (proj2 (perform_ocr_frame W s)) as H.
    unfold controller_view in H. inversion H. auto.
Qed.

(** One handler: only a successful capture replaces the image, and it
    enables both buttons. *)
Lemma step_capture ev s :
  captured_image (step W ev s)
  = match ev with
    | EvCaptured (Some b) => Some b
    | _ => captured_image s
    end
  /\ original_image (step W ev s)
     = match ev with
       | EvCaptured (Some b) => Some (copy b)
       | _ => original_image s
       end
  /\ (image_button (step W ev s), text_button (step W ev s))
     = match ev with
       | EvCaptured (Some b) => (normal, normal)
       | _ => (image_button s, text_button s)
       end.
Proof.
  destruct ev as [[b|]| | | |T sz|T]; cbn [step].
  - destruct s; cbn; auto.
  - destruct s; cbn; auto.
  - unfold on_text_button, require_capture, bind, get.
    destruct s as [cap tk orig rj lv lo cfg ls li ib tb nw tms nid pend ts clip msgs].
    destruct cap; cbn; auto.
  - unfold on_image_button, require_capture, bind, get.
    destruct s as [cap tk orig rj lv lo cfg ls li ib tb nw tms nid pend ts clip msgs].
    destruct cap; cbn; auto.
  - destruct (worker_run_keeps_capture s) as (-> & -> & -> & ->). auto.
  - pose proof (configure_job_view T sz s) as H.
    unfold job_view in H. inversion H. auto.
  - pose proof (mainloop_job_view T s) as H.
    unfold job_view in H. inversion H. auto.
Qed.
End EventFacts.

(** X14. Through any sequence of handlers (captures delivered, button
    presses, jobs run by workers, resize events, timers firing) the
    captured image is the one of the last successful capture, or the
    initial one when no capture succeeded: no job, no failed capture and
    no resize ever clears or replaces it.  The image kept for display is
    a copy of it whenever it was one at the start, and the two action
    buttons, enabled by a successful capture, are never disabled again. *)
Theorem captured_image_changes_only_by_capture :
  forall (W : MainApplication.env) (evs : list MainApplication.event)
         (s : MainApplication.t),
    MainApplication.captured_image (MainApplication.run W evs s)
    = MainApplication.last_capture evs (MainApplication.captured_image s)
    /\ (MainApplication.original_image s
        = option_map copy (MainApplication.captured_image s) ->
        MainApplication.original_image (MainApplication.run W evs s)
        = option_map copy
            (MainApplication.captured_image (MainApplication.run W evs s)))
    /\ (MainApplication.image_button (MainApplication.run W evs s),
        MainApplication.text_button (MainApplication.run W evs s))
       = if existsb MainApplication.is_successful_capture evs
         then (MainApplication.normal, MainApplication.normal)
         else (MainApplication.image_button s, MainApplication.text_button s).
Proof.
  intros W evs. induction evs as [|ev evs IH]; intros s.
  - cbn. auto.
  - change (MainApplication.run W (ev :: evs) s)
      with (MainApplication.run W evs (MainApplication.step W ev s)).
    destruct (IH (MainApplication.step W ev s)) as (I1 & I2 & I3).
    destruct (step_capture W ev s) as (S1 & S2 & S3).
    split; [|split].
    + rewrite I1, S1.
      destruct ev as [[b|]| | | | |]; reflexivity.
    + intros H. apply I2. rewrite S1, S2.
      destruct ev as [[b|]| | | | |]; cbn; auto.
    + rewrite I3. cbn [existsb]. clear IH I1 I2 I3 S1 S2.
      destruct ev as [[b|]| | | | |];
        cbn [MainApplication.is_successful_capture orb];
        rewrite S3; destruct (existsb _ evs); reflexivity.
Qed.

Section BeforeCapture.
Import MainApplication.
Variable W : env.

Lemma step_before_capture ev s :
  captured_image s = None ->
  pending s = [] ->
  is_successful_capture ev = false ->
  captured_image (step W ev s) = None
  /\ pending (step W ev s) = []
  /\ tess (step W ev s) = tess s
  /\ clipboard (step W ev s) = clipboard s.
Proof.
  intros Hc Hp Hev.
  destruct ev as [[b|]| | | |T sz|T]; cbn [step]; try discriminate.
  - destruct s; cbn in *; auto.
  - unfold on_text_button, require_capture, bind, get. rewrite Hc.
    destruct s; cbn in *; auto.
  - unfold on_image_button, require_capture, bind, get. rewrite Hc.
    destruct s; cbn in *; auto.
  - unfold worker_run. rewrite Hp. auto.
  - pose proof (configure_job_view T sz s) as H.
    unfold job_view in H. inversion H. splits; congruence.
  - pose proof (mainloop_job_view T s) as H.
    unfold job_view in H. inversion H. splits; congruence.
Qed.
End BeforeCapture.

(** X15. Until a capture succeeds nothing is processed: starting with no
    image and an idle executor, whatever the user presses and however the
    window is resized, and whatever captures fail or are cancelled, no
    job is ever queued, the OCR engine is never run, its command path is
    never touched, and the clipboard is never written. *)
Theorem nothing_runs_before_capture :
  forall (W : MainApplication.env) (evs : list MainApplication.event)
         (s : MainApplication.t),
    MainApplication.captured_image s = None ->
    MainApplication.pending s = [] ->
    existsb MainApplication.is_successful_capture evs = false ->
    MainApplication.captured_image (MainApplication.run W evs s) = None
    /\ MainApplication.pending (MainApplication.run W evs s) = []
    /\ MainApplication.tess (MainApplication.run W evs s)
       = MainApplication.tess s
    /\ MainApplication.clipboard (MainApplication.run W evs s)
       = MainApplication.clipboard s.
Proof.
  intros W evs. induction evs as [|ev evs IH]; intros s Hc Hp Hev.
  - cbn. auto.
  - cbn [existsb] in Hev. apply orb_false_iff in Hev as [Hev1 Hev2].
    change (MainApplication.run W (ev :: evs) s)
      with (MainApplication.run W evs (MainApplication.step W ev s)).
    destruct (step_before_capture W ev s Hc Hp Hev1) as (S1 & S2 & S3 & S4).
    destruct (IH _ S1 S2 Hev2) as (I1 & I2 & I3 & I4).
    splits; congruence.
Qed.

Lemma nothing_runs_before_capture_witness :
  let s := MainApplication.initial [] [] (Some "/usr/bin/tesseract"%string) in
  let evs := [MainApplication.EvTextButton;
              MainApplication.EvCaptured None;
              MainApplication.EvConfigure 10 (800, 600);
              MainApplication.EvImageButton;
              MainApplication.EvWorker;
              MainApplication.EvIdle 500] in
  MainApplication.tess (MainApplication.run working_world evs s)
  = MainApplication.tess s.
Proof.
  intros s evs.
  apply (nothing_runs_before_capture working_world evs s); reflexivity.
Defined.

(** ** From capture to display *)

(** X16. A successful capture reaches the screen: from a state with no
    timer pending and an idle executor, once a worker has run the display
    job and the event loop has run, the label shows the capture, at its
    own size when it fits the viewport and otherwise scaled to a size of
    at least 1x1 within the viewport; nothing is left queued. *)
Theorem capture_is_displayed :
  forall (W : MainApplication.env) (s : MainApplication.t) (img : image)
         (ow oh lw lh T : Z),
    MainApplication.timers s = [] ->
    MainApplication.pending s = [] ->
    MainApplication.label_size s = (lw, lh) ->
    size img = (ow, oh) ->
    MainApplication.dimension ow -> MainApplication.dimension oh ->
    MainApplication.dimension lw -> MainApplication.dimension lh ->
    1 < lw -> 1 < lh ->
    MainApplication.now s <= T ->
    let s3 := fst (MainApplication.mainloop_until T
                     (MainApplication.worker_run W
                        (snd (MainApplication.process_captured_image
                                (Some img) s)))) in
    exists shown,
      MainApplication.label_image s3 = Some shown
      /\ MainApplication.tk_image s3 = Some shown
      /\ content_of shown = content_of img
      /\ 1 <= fst (size shown) <= lw
      /\ 1 <= snd (size shown) <= lh
      /\ (ow <= lw -> oh <= lh -> shown = copy img)
      /\ MainApplication.timers s3 = []
      /\ MainApplication.pending s3 = [].
Proof.
  intros W s img ow oh lw lh T Ht Hp Hl Hsz How Hoh Hlw Hlh Hw Hh Hnow s3.
  subst s3.
  destruct s as [cap tk orig rj lv lo cfg ls li ib tb nw tms nid pend ts clip msgs].
  cbn in Ht, Hp, Hl, Hnow. subst tms pend ls.
  unfold MainApplication.process_captured_image, bind, modify,
    MainApplication.submit. cbn.
  unfold MainApplication.worker_run. cbn.
  unfold MainApplication.display_captured_image, bind.
  match goal with
  | |- context [MainApplication.resize_image ?s0] =>
      rewrite (resize_image_result s0 (copy img) lw lh eq_refl eq_refl Hw Hh)
  end.
  cbn [size]. rewrite Hsz. cbn [fst snd].
  assert (Hdue : (nw + 0 <=? T) = true) by (apply Z.leb_le; lia).
  destruct ((ow <=? lw) && (oh <=? lh)) eqn:Hfit.
  - apply andb_true_iff in Hfit as [F1 F2].
    apply Z.leb_le in F1, F2.
    cbn. unfold MainApplication.mainloop_until. cbn. rewrite Hdue. cbn.
    unfold MainApplication.not_id. cbn. rewrite Nat.eqb_refl. cbn.
    exists (copy img). cbn. rewrite Hsz. cbn.
    unfold MainApplication.dimension in *. splits; auto; lia.
  - destruct (scaled_size_spec ow oh lw lh How Hoh Hlw Hlh)
      as (nw' & nh' & Hs & Hnw & Hnh & _).
    rewrite Hs. cbn.
    unfold MainApplication.mainloop_until. cbn. rewrite Hdue. cbn.
    unfold MainApplication.not_id. cbn. rewrite Nat.eqb_refl. cbn.
    exists (resize (nw', nh') (copy img)). cbn.
    splits; auto; lia.
Qed.

Lemma capture_is_displayed_witness :
  let img := Bitmap 7 RGB (1600, 900) in
  let s := MainApplication.set_label_size (1270, 660)
             (MainApplication.initial [] [] None) in
  let s3 := fst (MainApplication.mainloop_until 10
                   (MainApplication.worker_run working_world
                      (snd (MainApplication.process_captured_image
                              (Some img) s)))) in
  exists shown,
    MainApplication.label_image s3 = Some shown
    /\ MainApplication.tk_image s3 = Some shown
    /\ content_of shown = content_of img
    /\ 1 <= fst (size shown) <= 1270
    /\ 1 <= snd (size shown) <= 660
    /\ (1600 <= 1270 -> 900 <= 660 -> shown = copy img)
    /\ MainApplication.timers s3 = []
    /\ MainApplication.pending s3 = [].
Proof.
  intros img s.
  apply (capture_is_displayed working_world s img 1600 900 1270 660 10);
    try reflexivity; unfold MainApplication.dimension; cbn; lia.
Defined.

(** ** The configuration file *)

Section ConfigurationFacts.
Import ConfigurationManager.

Lemma dict_get_set_same k v d : dict_get k (dict_set k v d) = Some v.
Proof.
  induction d as [|[k' v'] d IH]; cbn.
  - now rewrite String.eqb_refl.
  - destruct (String.eqb k k') eqn:Ek; cbn; rewrite Ek; auto.
Qed.

Lemma dict_get_set_other k k' v d :
  k <> k' -> dict_get k (dict_set k' v d) = dict_get k d.
Proof.
  intros Hne. apply String.eqb_neq in Hne.
  induction d as [|[k1 v1] d IH]; cbn.
  - now rewrite Hne.
  - destruct (String.eqb k' k1) eqn:Ek; cbn.
    + apply String.eqb_eq in Ek. subst k1. now rewrite Hne.
    + now rewrite IH.
Qed.

Lemma dict_set_truthy k v d : truthy (JObject (dict_set k v d)) = true.
Proof.
  destruct d as [|[k' v'] d]; cbn; [reflexivity|].
  destruct (String.eqb k k'); reflexivity.
Qed.

Lemma dict_get_set_present k k' v d :
  dict_get k d <> None -> dict_get k (dict_set k' v d) <> None.
Proof.
  intros H. destruct (String.eqb k k') eqn:E.
  - apply String.eqb_eq in E. subst. rewrite dict_get_set_same. discriminate.
  - apply String.eqb_neq in E. now rewrite dict_get_set_other.
Qed.

(** On an object the loop of [load_config] returns an object in which
    stored entries win and defaults fill the gaps. *)
Lemma fill_defaults_object defaults : forall d,
  exists d',
    fill_defaults defaults (JObject d) = Ok (JObject d')
    /\ forall k, dict_get k d'
                 = match dict_get k d with
                   | Some v => Some v
                   | None => dict_get k defaults
                   end.
Proof.
  induction defaults as [|[key value] rest IH]; intros d; cbn.
  - exists d. split; [reflexivity|]. intros k. now destruct (dict_get k d).
  - destruct (dict_get key d) as [v0|] eqn:Eg.
    + destruct (IH d) as (d' & H1 & H2). exists d'. split; [exact H1|].
      intros k. rewrite H2. destruct (dict_get k d) eqn:Ek; [reflexivity|].
      destruct (String.eqb k key) eqn:Ekk; [|reflexivity].
      apply String.eqb_eq in Ekk. subst k. congruence.
    + destruct (IH (dict_set key value d)) as (d' & H1 & H2).
      exists d'. split; [exact H1|].
      intros k. rewrite H2.
      destruct (String.eqb k key) eqn:Ekk.
      * apply String.eqb_eq in Ekk. subst k.
        now rewrite dict_get_set_same, Eg.
      * apply String.eqb_neq in Ekk.
        now rewrite (dict_get_set_other k key value d Ekk).
  Qed.

(** An object that has every default key passes the loop unchanged. *)
Lemma fill_defaults_complete defaults : forall d,
  (forall k v, In (k, v) defaults -> dict_get k d <> None) ->
  fill_defaults defaults (JObject d) = Ok (JObject d).
Proof.
  induction defaults as [|[key value] rest IH]; intros d H; cbn; [reflexivity|].
  destruct (dict_get key d) eqn:Eg.
  - apply IH. intros k v Hin. apply (H k v). now right.
  - exfalso. apply (H key value); [now left|exact Eg].
Qed.

Lemma load_config_holds os_name w c :
  CONFIG_FILE w = Holds c ->
  load_config os_name w
  = match fill_defaults (DEFAULT_CONFIG os_name) c with
    | Ok config => (Ok config, w)
    | Raise e =>
        (Ok (JObject (DEFAULT_CONFIG os_name)),
         {| CONFIG_FILE := CONFIG_FILE w;
            open_for_writing := open_for_writing w;
            stdout := stdout w ++ ["Error loading configuration: " ++ str e]%string |})
    end.
Proof.
  intros H. destruct w as [f o out]. cbn in H. subst f.
  unfold load_config, bind, try_except, read_config, ConfigurationManager.lift.
  cbn -[fill_defaults DEFAULT_CONFIG].
  destruct (fill_defaults (DEFAULT_CONFIG os_name) c); reflexivity.
Qed.

End ConfigurationFacts.

(** X17. When the configuration file holds a JSON object, [load_config]
    returns an object in which every stored entry has its stored value
    and a default key that is missing has its default value; it prints
    nothing and leaves the file as it is. *)
Theorem load_config_stored_entries_win :
  forall os_name w d,
    ConfigurationManager.CONFIG_FILE w
    = ConfigurationManager.Holds (ConfigurationManager.JObject d) ->
    exists d',
      ConfigurationManager.load_config os_name w
      = (Ok (ConfigurationManager.JObject d'), w)
      /\ forall k,
           ConfigurationManager.dict_get k d'
           = match ConfigurationManager.dict_get k d with
             | Some v => Some v
             | None =>
                 ConfigurationManager.dict_get k
                   (ConfigurationManager.DEFAULT_CONFIG os_name)
             end.
Proof.
  intros os_name w d H.
  destruct (fill_defaults_object (ConfigurationManager.DEFAULT_CONFIG os_name) d)
    as (d' & H1 & H2).
  exists d'. split; [|exact H2].
  rewrite (load_config_holds os_name w _ H), H1. reflexivity.
Qed.

Lemma load_config_stored_entries_win_witness :
  let w := {| ConfigurationManager.CONFIG_FILE :=
                ConfigurationManager.Holds
                  (ConfigurationManager.JObject
                     [("interface_language"%string,
                       ConfigurationManager.JString "eng")]);
              ConfigurationManager.open_for_writing := Ok tt;
              ConfigurationManager.stdout := [] |} in
  exists d',
    ConfigurationManager.load_config "posix" w
    = (Ok (ConfigurationManager.JObject d'), w)
    /\ forall k,
         ConfigurationManager.dict_get k d'
         = match ConfigurationManager.dict_get k
                   [("interface_language"%string,
                     ConfigurationManager.JString "eng")] with
           | Some v => Some v
           | None =>
               ConfigurationManager.dict_get k
                 (ConfigurationManager.DEFAULT_CONFIG "posix")
           end.
Proof.
  intros w.
  apply (load_config_stored_entries_win "posix" w
           [("interface_language"%string, ConfigurationManager.JString "eng")]).
  reflexivity.
Defined.

(** X18. [load_config] never raises, and what it returns is a [dict]
    except in one case: the file holds an array that has both default
    keys among its elements, or a string that has both as substrings.
    Such a value passes the loop over the defaults untouched and is
    returned as the configuration. *)
Theorem load_config_returns_dict_unless :
  forall os_name w,
    exists config,
      fst (ConfigurationManager.load_config os_name w) = Ok config
      /\ (ConfigurationManager.is_object config = false
          <-> exists c,
                ConfigurationManager.CONFIG_FILE w = ConfigurationManager.Holds c
                /\ ConfigurationManager.passes_for_dict os_name c = true)
      /\ (forall c,
            ConfigurationManager.CONFIG_FILE w = ConfigurationManager.Holds c ->
            ConfigurationManager.passes_for_dict os_name c = true ->
            config = c).
Proof.
  intros os_name w.
  destruct (ConfigurationManager.CONFIG_FILE w) as [|e|c] eqn:Ef.
  - exists (ConfigurationManager.JObject (ConfigurationManager.DEFAULT_CONFIG os_name)).
    unfold ConfigurationManager.load_config, bind, try_except,
      ConfigurationManager.read_config. rewrite Ef. cbn.
    split; [reflexivity|]. split.
    + split; [discriminate|]. intros (c & Hc & _). discriminate.
    + intros c Hc. discriminate.
  - exists (ConfigurationManager.JObject (ConfigurationManager.DEFAULT_CONFIG os_name)).
    unfold ConfigurationManager.load_config, bind, try_except,
      ConfigurationManager.read_config. rewrite Ef. cbn.
    split; [reflexivity|]. split.
    + split; [discriminate|]. intros (c & Hc & _). discriminate.
    + intros c Hc. discriminate.
  - rewrite (load_config_holds os_name w c Ef).
    destruct c as [ |b|n|x|s|items|d].
    1-4: (exists (ConfigurationManager.JObject
                    (ConfigurationManager.DEFAULT_CONFIG os_name));
          cbn; split; [reflexivity|]; split;
          [split; [discriminate|]; intros (c & Hc & Hp); inversion Hc; subst c;
           discriminate
          |intros c Hc Hp; inversion Hc; subst c; discriminate]).
    + cbn.
      destruct (ConfigurationManager.is_substring "tesseract_path" s) eqn:E1;
      destruct (ConfigurationManager.is_substring "interface_language" s) eqn:E2;
      cbn; eexists; (split; [reflexivity|]); split;
        try (split; [discriminate|]; intros (c & Hc & Hp); inversion Hc; subst c;
             cbn in Hp; rewrite E1, E2 in Hp; discriminate);
        try (intros c Hc Hp; inversion Hc; subst c; cbn in Hp;
             rewrite E1, E2 in Hp; discriminate).
      * split; [intros _|reflexivity]. exists (ConfigurationManager.JString s).
        split; [reflexivity|]. cbn. now rewrite E1, E2.
      * intros c Hc _. now inversion Hc.
    + cbn.
      destruct (existsb (ConfigurationManager.is_str "tesseract_path") items) eqn:E1;
      destruct (existsb (ConfigurationManager.is_str "interface_language") items) eqn:E2;
      cbn; eexists; (split; [reflexivity|]); split;
        try (split; [discriminate|]; intros (c & Hc & Hp); inversion Hc; subst c;
             cbn in Hp; rewrite E1, E2 in Hp; discriminate);
        try (intros c Hc Hp; inversion Hc; subst c; cbn in Hp;
             rewrite E1, E2 in Hp; discriminate).
      * split; [intros _|reflexivity]. exists (ConfigurationManager.JArray items).
        split; [reflexivity|]. cbn. now rewrite E1, E2.
      * intros c Hc _. now inversion Hc.
    + destruct (fill_defaults_object (ConfigurationManager.DEFAULT_CONFIG os_name) d)
        as (d' & H1 & _).
      rewrite H1. exists (ConfigurationManager.JObject d'). cbn.
      split; [reflexivity|]. split.
      * split; [discriminate|]. intros (c & Hc & Hp). inversion Hc; subst c.
        discriminate.
      * intros c Hc Hp. inversion Hc; subst c. discriminate.
Qed.

(** ** The configuration dialog *)

Section DialogFacts.
Import ConfigurationManager.
Variable O : ConfigurationDialog.os.
Variable E : pytesseract.engine.

(** Validation returns a verdict, changes the label only, and says yes
    to validated paths only. *)
Lemma validate_summary w :
  exists b label,
    ConfigurationDialog.validate_tesseract_path O E w
    = (Ok b,
       {| ConfigurationDialog.tesseract_path_var :=
            ConfigurationDialog.tesseract_path_var w;
          ConfigurationDialog.validation_label := label;
          ConfigurationDialog.tess := ConfigurationDialog.tess w |})
    /\ (b = true -> Dialog.validated O E (ConfigurationDialog.tesseract_path_var w)).
Proof.
  destruct w as [path label [cmd invs]]. unfold Dialog.validated.
  unfold ConfigurationDialog.validate_tesseract_path, bind, get. cbn.
  destruct (String.eqb path "") eqn:Ee.
  { cbn. do 2 eexists. split; [reflexivity|discriminate]. }
  apply String.eqb_neq in Ee.
  destruct (ConfigurationDialog.path_exists O path) eqn:Ex; cbn.
  2:{ do 2 eexists. split; [reflexivity|discriminate]. }
  unfold try_finally, try_except, bind, ConfigurationDialog.in_tess,
    pytesseract.get_tesseract_version. cbn.
  destruct (pytesseract.run_version E path) as [v|e] eqn:Ev; cbn;
    do 2 eexists; (split; [reflexivity|]).
  - intros _. eauto.
  - discriminate.
Qed.

Ltac vcbn := cbn -[ConfigurationDialog.validate_tesseract_path].

Lemma dialog_step_inv members g d a :
  Dialog.dialog_inv O E members g d -> Dialog.dialog_inv O E members g (Dialog.step O E d a).
Proof.
  intros (Ht & Hopen & Hclosed). unfold Dialog.step.
  destruct (Dialog.destroyed d) eqn:Ed.
  { split; [exact Ht|]. split; [intros; congruence|intros _; now apply Hclosed]. }
  destruct (Hopen eq_refl) as (Hc & Hr). clear Hopen Hclosed.
  destruct d as [w cfg res dead boxes]. cbn in *. subst.
  destruct a as [text|path| | |]; cbn [Dialog.handler].
  - unfold Dialog.dialog_inv. vcbn. repeat split; auto; discriminate.
  - unfold Dialog.browse_tesseract_path.
    destruct (String.eqb path ""); vcbn.
    { unfold Dialog.dialog_inv. vcbn. repeat split; auto; discriminate. }
    unfold bind, Dialog.set_path, Dialog.in_widgets, modify. vcbn.
    match goal with
    | |- context [ConfigurationDialog.validate_tesseract_path O E ?w0] =>
        destruct (validate_summary w0) as (b & label & Hv & _); rewrite Hv
    end.
    unfold Dialog.dialog_inv. vcbn. repeat split; auto; discriminate.
  - unfold bind, Dialog.in_widgets. vcbn.
    destruct (validate_summary w) as (b & label & Hv & _). rewrite Hv.
    unfold Dialog.dialog_inv. vcbn. repeat split; auto; discriminate.
  - unfold Dialog.on_save, bind, Dialog.in_widgets. vcbn.
    destruct (validate_summary w) as (b & label & Hv & Hb). rewrite Hv. vcbn.
    destruct b; vcbn.
    + unfold Dialog.dialog_inv. vcbn. repeat split; try discriminate.
      intros _. right. exists (ConfigurationDialog.tesseract_path_var w).
      split; [now apply Hb|reflexivity].
    + unfold Dialog.dialog_inv. vcbn. repeat split; auto; discriminate.
  - unfold Dialog.dialog_inv. vcbn. repeat split; try discriminate. auto.
Qed.

Lemma dialog_run_inv members g actions : forall d,
  Dialog.dialog_inv O E members g d -> Dialog.dialog_inv O E members g (Dialog.run O E actions d).
Proof.
  induction actions as [|a actions IH]; intros d H; cbn; [exact H|].
  apply IH. now apply dialog_step_inv.
Qed.


End DialogFacts.



(** ** The main window *)

Section WindowFacts.
Import ConfigurationManager MainWindow.

Lemma save_config_spec config w :
  save_config config w
  = match open_for_writing w with
    | Ok _ =>
        (Ok true,
         {| CONFIG_FILE := Holds config;
            open_for_writing := open_for_writing w;
            stdout := stdout w |})
    | Raise e =>
        (Ok false,
         {| CONFIG_FILE := CONFIG_FILE w;
            open_for_writing := open_for_writing w;
            stdout := stdout w ++ ["Error saving configuration: " ++ str e]%string |})
    end.
Proof.
  destruct w as [f o out]. unfold save_config, try_except, bind, get. cbn.
  destruct o; reflexivity.
Qed.

Lemma save_config_ok config w : exists b, fst (save_config config w) = Ok b.
Proof. rewrite save_config_spec. destruct (open_for_writing w); cbn; eauto. Qed.

(** The texts of a language code are those of one of the two tables. *)
Lemma texts_for_string code :
  exists ui, texts_for (JString code) = Ok ui /\ (ui = tur \/ ui = eng).
Proof.
  cbn. destruct (String.eqb code "tur"); [eauto|].
  destruct (String.eqb code "eng"); eauto.
Qed.

Lemma texts_for_cases lang_code ui :
  texts_for lang_code = Ok ui -> ui = tur \/ ui = eng.
Proof.
  destruct lang_code; cbn; try discriminate; try (intros H; inversion H; auto).
  destruct (String.eqb s "tur"); [auto|].
  destruct (String.eqb s "eng"); auto.
Qed.

(** [switch_language] on a [dict] configuration. *)
Lemma switch_language_effect lang_code s d ui :
  config s = JObject d ->
  texts_for lang_code = Ok ui ->
  let cfg := JObject (dict_set "interface_language" lang_code d) in
  let var :=
    if existsb (String.eqb (MainApplication.language_var (app s)))
               (ocr_languages ui)
    then MainApplication.language_var (app s)
    else hd ""%string (ocr_languages ui) in
  switch_language lang_code s
  = (Ok tt,
     {| app := set_language_var var
                 (set_config_tesseract_path (tesseract_path_of cfg)
                    (set_language_options (language_codes ui) (app s)));
        config := cfg;
        ui_texts := ui;
        combobox_values := ocr_languages ui;
        files := snd (save_config cfg (files s));
        delay_var := delay_var s;
        root := root s;
        capture_timers := capture_timers s;
        overlay := overlay s |}).
Proof.
  intros Hc Hui.
  destruct s as [a c u cv fs dv rt ct ov]. cbn in Hc. subst c.
  destruct a as [cap tk orig rj lv lo cfgp ls li ib tb nw tms nid pend ts clip msgs].
  unfold switch_language, bind, MainWindow.lift. rewrite Hui.
  cbn -[save_config tesseract_path_of].
  unfold in_files. cbn -[save_config tesseract_path_of].
  destruct (save_config_ok (JObject (dict_set "interface_language" lang_code d)) fs)
    as (b & Hb).
  destruct (save_config _ fs) as [r fs'] eqn:Es. cbn in Hb. subst r.
  cbn -[tesseract_path_of].
  unfold update_ui_texts, bind, get. cbn -[tesseract_path_of].
  destruct (texts_for_cases _ _ Hui) as [-> | ->];
    cbn -[tesseract_path_of];
    match goal with
    | |- context [if negb ?c then _ else _] => destruct c
    end; reflexivity.
Qed.

(** A value that is not a [dict] passes the loop untouched or not at
    all. *)
Lemma fill_defaults_non_object os_name c :
  is_object c = false ->
  exists e,
    fill_defaults (DEFAULT_CONFIG os_name) c
    = if passes_for_dict os_name c then Ok c else Raise e.
Proof.
  destruct c as [ |b|n|x|s|items|d]; cbn; try discriminate; intros _;
    try (eexists; reflexivity).
  - destruct (is_substring "tesseract_path" s);
    destruct (is_substring "interface_language" s); cbn;
      first [exists (Exception ""); reflexivity | eexists; reflexivity].
  - destruct (existsb (is_str "tesseract_path") items);
    destruct (existsb (is_str "interface_language") items); cbn;
      first [exists (Exception ""); reflexivity | eexists; reflexivity].
Qed.

Lemma passes_for_dict_not_object os_name c :
  passes_for_dict os_name c = true -> is_object c = false.
Proof. destruct c; cbn; auto; discriminate. Qed.

(** What [load_config] returns, by what the file holds. *)
Lemma load_config_summary os_name w :
  exists c out,
    load_config os_name w
    = (Ok c, {| CONFIG_FILE := CONFIG_FILE w;
                open_for_writing := open_for_writing w;
                stdout := out |})
    /\ match c with
       | JObject d' =>
           (forall k v, In (k, v) (DEFAULT_CONFIG os_name) ->
                        dict_get k d' <> None)
           /\ dict_get "interface_language" d'
              = match CONFIG_FILE w with
                | Holds (JObject d) =>
                    match dict_get "interface_language" d with
                    | Some v => Some v
                    | None => Some (JString "tur")
                    end
                | _ => Some (JString "tur")
                end
           /\ (forall c0, CONFIG_FILE w = Holds c0 ->
                          passes_for_dict os_name c0 = false)
       | _ => CONFIG_FILE w = Holds c /\ passes_for_dict os_name c = true
       end.
Proof.
  destruct w as [f o out].
  cbn [CONFIG_FILE open_for_writing stdout].
  assert (Hdef :
    (forall c0, f = Holds c0 -> passes_for_dict os_name c0 = false) ->
    (match f with Holds (JObject _) => False | _ => True end) ->
    (forall k v, In (k, v) (DEFAULT_CONFIG os_name) ->
                 dict_get k (DEFAULT_CONFIG os_name) <> None)
    /\ dict_get "interface_language" (DEFAULT_CONFIG os_name)
       = match f with
         | Holds (JObject d) =>
             match dict_get "interface_language" d with
             | Some v => Some v
             | None => Some (JString "tur")
             end
         | _ => Some (JString "tur")
         end
    /\ (forall c0, f = Holds c0 -> passes_for_dict os_name c0 = false)).
  { intros Hp Hf. split; [|split].
    - intros k v [H|[H|[]]]; inversion H; subst; cbn; discriminate.
    - cbn. destruct f as [|e|[ | | | | | |d]]; try reflexivity. destruct Hf.
    - exact Hp. }
  destruct f as [|e|c].
  - exists (JObject (DEFAULT_CONFIG os_name)), out. split; [reflexivity|].
    apply Hdef; [discriminate|exact I].
  - eexists (JObject (DEFAULT_CONFIG os_name)), _. split; [reflexivity|].
    apply Hdef; [discriminate|exact I].
  - rewrite (load_config_holds os_name (ConfigurationManager.mk (Holds c) o out) c eq_refl).
    cbn [CONFIG_FILE open_for_writing stdout].
    destruct (is_object c) eqn:Eo.
    + destruct c as [ | | | | | |d]; try discriminate.
      destruct (fill_defaults_object (DEFAULT_CONFIG os_name) d)
        as (d' & H1 & H2).
      rewrite H1. exists (JObject d'), out. split; [reflexivity|].
      split; [|split].
      * intros k v Hin. rewrite H2. destruct (dict_get k d); [discriminate|].
        destruct Hin as [H|[H|[]]]; inversion H; subst; cbn; discriminate.
      * rewrite H2. cbn. now destruct (dict_get "interface_language" d).
      * intros c0 H. inversion H. reflexivity.
    + destruct (fill_defaults_non_object os_name c Eo) as (e & ->).
      destruct (passes_for_dict os_name c) eqn:Ep.
      * exists c, out. split; [reflexivity|].
        destruct c; try discriminate; now split.
      * eexists (JObject (DEFAULT_CONFIG os_name)), _. split; [reflexivity|].
        apply Hdef.
        -- intros c0 H. inversion H. now subst.
        -- destruct c; try exact I. discriminate.
Qed.

(** [__init__] once the configuration is loaded: it raises on a language
    entry that cannot be hashed, and otherwise returns the window shown,
    with the texts of that language, the first OCR language selected,
    and the configuration saved. *)
Lemma init_on_object os_name w d' w1 lang :
  load_config os_name w = (Ok (JObject d'), w1) ->
  dict_get "interface_language" d' = Some lang ->
  match texts_for lang with
  | Raise e => __init__ os_name w = (Raise e, w1)
  | Ok ui =>
      exists s0,
        __init__ os_name w = (Ok s0, files s0)
        /\ config s0 = JObject (dict_set "interface_language" lang d')
        /\ files s0
           = snd (save_config (JObject (dict_set "interface_language" lang d')) w1)
        /\ ui_texts s0 = ui
        /\ combobox_values s0 = ocr_languages ui
        /\ MainApplication.language_options (app s0) = language_codes ui
        /\ MainApplication.language_var (app s0) = hd ""%string (ocr_languages ui)
        /\ pytesseract.invocations (MainApplication.tess (app s0)) = []
        /\ root s0 = shown /\ overlay s0 = None /\ capture_timers s0 = []
  end.
Proof.
  intros Hload Hlang. unfold __init__. rewrite Hload.
  cbn [getitem]. rewrite Hlang.
  destruct (texts_for lang) as [ui|e] eqn:Hui; [|reflexivity].
  match goal with
  | |- context [switch_language lang ?self] =>
      rewrite (switch_language_effect lang self d' ui eq_refl Hui)
  end.
  eexists. split; [reflexivity|].
  cbn -[save_config tesseract_path_of].
  destruct (texts_for_cases _ _ Hui) as [-> | ->]; cbn; repeat split.
Qed.

Lemma texts_for_raises v :
  (exists e, texts_for v = Raise e) <-> unhashable v = true.
Proof.
  destruct v; cbn; split; try discriminate; try (intros (e & H); discriminate);
    try (intros _; eexists; reflexivity); auto.
Qed.

(** Without a [dict] there is no language entry to read. *)
Lemma init_on_non_object os_name w c w1 :
  load_config os_name w = (Ok c, w1) ->
  is_object c = false ->
  exists e, __init__ os_name w = (Raise e, w1).
Proof.
  intros Hload Hc. unfold __init__. rewrite Hload.
  destruct c; try discriminate; cbn; eexists; reflexivity.
Qed.

End WindowFacts.

(** X20. What in the configuration file keeps the program from
    starting.  [__init__] raises exactly when the file holds an array
    with both default keys among its elements, a string with both as
    substrings, or an object whose [interface_language] is an array or
    an object.  With any other content, with no file and with a file
    that cannot be read or parsed, it returns. *)
Theorem init_raises_iff :
  forall os_name w,
    (exists e, fst (MainWindow.__init__ os_name w) = Raise e)
    <-> exists c,
          ConfigurationManager.CONFIG_FILE w = ConfigurationManager.Holds c
          /\ MainWindow.refuses_to_start os_name c = true.
Proof.
  intros os_name w.
  destruct (load_config_summary os_name w) as (c & out & Hload & Hc).
  destruct (ConfigurationManager.is_object c) eqn:Eo.
  - destruct c as [ | | | | | |d']; try discriminate.
    destruct Hc as (_ & Hlang & Hnp).
    match type of Hlang with _ = ?L => remember L as l eqn:El end.
    assert (exists lang, l = Some lang) as (lang & ->).
    { subst l. destruct (ConfigurationManager.CONFIG_FILE w) as [| |[ | | | | | |d]];
        eauto. destruct (ConfigurationManager.dict_get _ d); eauto. }
    pose proof (init_on_object os_name w d' _ lang Hload Hlang) as Hinit.
    assert (Href : forall c0,
      ConfigurationManager.CONFIG_FILE w = ConfigurationManager.Holds c0 ->
      MainWindow.refuses_to_start os_name c0 = ConfigurationManager.unhashable lang).
    { intros c0 Hf. unfold MainWindow.refuses_to_start.
      rewrite (Hnp c0 Hf). rewrite Hf in El. cbn.
      destruct c0 as [ | | | | | |d]; try (inversion El; reflexivity).
      destruct (ConfigurationManager.dict_get "interface_language" d);
        inversion El; reflexivity. }
    split.
    + intros (e & He).
      destruct (MainWindow.texts_for lang) as [ui|e'] eqn:Hui.
      { destruct Hinit as (s0 & H0 & _). rewrite H0 in He. discriminate. }
      assert (Hu : ConfigurationManager.unhashable lang = true)
        by (apply texts_for_raises; eauto).
      destruct (ConfigurationManager.CONFIG_FILE w) as [| |c0] eqn:Ef;
        try (inversion El; subst lang; discriminate).
      exists c0. split; [reflexivity|]. now rewrite (Href c0 eq_refl).
    + intros (c0 & Hf & Hr). rewrite (Href c0 Hf) in Hr.
      apply texts_for_raises in Hr. destruct Hr as (e & He).
      rewrite He in Hinit. exists e. now rewrite Hinit.
  - assert (Hc' : ConfigurationManager.CONFIG_FILE w = ConfigurationManager.Holds c
                  /\ ConfigurationManager.passes_for_dict os_name c = true)
      by (destruct c; try discriminate; exact Hc).
    destruct Hc' as (Hf & Hp).
    destruct (init_on_non_object os_name w c _ Hload Eo) as (e & He).
    split.
    + intros _. exists c. split; [exact Hf|].
      unfold MainWindow.refuses_to_start. now rewrite Hp.
    + intros _. exists e. now rewrite He.
Qed.

(** ** The OCR language *)

Section LanguageFacts.
Import MainApplication.
Variable W : env.





End LanguageFacts.

(** ** Events of the main window *)

Section StepFacts.
Import ConfigurationManager MainWindow.
Variable W : MainApplication.env.
Variable O : ConfigurationDialog.os.
Variable tcl_string : json -> string.
Variable screenshot : ScreenCapturer.region -> result image.

Lemma callbacks_of_release self x y :
  ScreenCapturer.callbacks
    (snd (ScreenCapturer.on_button_release screenshot self x y))
  = [ScreenCapturer.captured_image
       (fst (ScreenCapturer.on_button_release screenshot self x y))].
Proof.
  unfold ScreenCapturer.on_button_release, ScreenCapturer.selection_rectangle.
  cbn. destruct ((0 <? _) && (0 <? _)); [|reflexivity].
  destruct (screenshot _); reflexivity.
Qed.

Lemma app_process_captured_image_ok c a :
  fst (MainApplication.process_captured_image c a) = Ok tt.
Proof. destruct a, c; reflexivity. Qed.

(** The completion callback brings the window back and hands the
    capture to the application. *)
Lemma process_captured_image_effect c s :
  process_captured_image c s
  = (Ok tt,
     set_app (snd (MainApplication.process_captured_image c (app s)))
       (set_root shown s)).
Proof.
  unfold process_captured_image, bind, modify, in_app.
  pose proof (app_process_captured_image_ok c (app (set_root shown s))) as H.
  replace (app (set_root shown s)) with (app s) in * by now destruct s.
  destruct (MainApplication.process_captured_image c (app s)) as [r a].
  cbn in H. subst r. now destruct s.
Qed.

(** A release on an anchored overlay closes it and delivers what the
    release handler captured. *)
Lemma on_button_release_effect x y s self :
  overlay s = Some (Some self) ->
  on_button_release screenshot x y s
  = (Ok tt,
     set_app
       (snd (MainApplication.process_captured_image
               (ScreenCapturer.captured_image
                  (fst (ScreenCapturer.on_button_release screenshot self x y)))
               (app s)))
       (set_root shown (set_overlay None s))).
Proof.
  intros Ho. unfold on_button_release, bind, get. rewrite Ho.
  pose proof (callbacks_of_release self x y) as Hc.
  destruct (ScreenCapturer.on_button_release screenshot self x y) as [self' effects].
  cbn [fst snd] in *. rewrite Hc. cbn [for_each]. unfold bind, modify.
  rewrite process_captured_image_effect. cbn. now destruct s.
Qed.

Lemma set_tess_same a : MainApplication.set_tess (MainApplication.tess a) a = a.
Proof. now destruct a. Qed.

(** [show_configuration] on a [dict] configuration: either a validated
    path is stored and saved, or the configuration stays; the message
    boxes of the dialog are all else that happens. *)
Lemma show_configuration_effect actions s d :
  config s = JObject d ->
  exists boxes,
    (exists p,
       Dialog.validated O (MainApplication.engine W) p
       /\ let cfg := JObject (dict_set "tesseract_path" (JString p) d) in
          show_configuration W O tcl_string actions s
          = (Ok tt,
             set_files (snd (save_config cfg (files s)))
               (set_config cfg
                  (set_app
                     (set_config_tesseract_path (Some p)
                        (MainApplication.set_messages
                           (MainApplication.messages (app s) ++ boxes) (app s)))
                     s))))
    \/ show_configuration W O tcl_string actions s
       = (Ok tt,
          set_app (MainApplication.set_messages
                     (MainApplication.messages (app s) ++ boxes) (app s)) s).
Proof.
  intros Hc. unfold show_configuration, bind, get, MainWindow.lift. rewrite Hc.
  cbn [Dialog.init].
  match goal with
  | |- context [Dialog.run O ?E actions ?d0] =>
      assert (Hinv : Dialog.dialog_inv O E d (MainApplication.tess (app s)) d0)
        by (unfold Dialog.dialog_inv; cbn; repeat split; auto; discriminate);
      pose proof (dialog_run_inv O E d _ actions d0 Hinv) as (Ht & _ & Hclosed);
      unfold Dialog.show;
      destruct (Dialog.run O E actions d0) as [w cfg res dead boxes] eqn:Er
  end.
  cbn in Ht, Hclosed. cbn [Dialog.widgets Dialog.boxes Dialog.destroyed Dialog.self_result].
  exists boxes. rewrite Ht.
  unfold in_app, modify. cbn [fst snd]. rewrite set_tess_same.
  destruct dead.
  2:{ right. destruct s; reflexivity. }
  destruct (Hclosed eq_refl) as [-> | (p & Hp & ->)].
  { right. destruct s; reflexivity. }
  left. exists p. split; [exact Hp|].
  rewrite dict_set_truthy. unfold assign_config, bind, modify, in_app, in_files.
  assert (Hpath : tesseract_path_of (JObject (dict_set "tesseract_path" (JString p) d))
                  = Some p)
    by (unfold tesseract_path_of; now rewrite dict_get_set_same).
  rewrite Hpath.
  destruct (save_config_ok (JObject (dict_set "tesseract_path" (JString p) d)) (files s))
    as (b & Hb).
  destruct s as [a c u cv fs dv rt ct ov]. cbn in *.
  destruct (save_config _ fs) as [r fs']. cbn in Hb. subst r. reflexivity.
Qed.

End StepFacts.

Section InvariantFacts.
Import ConfigurationManager MainWindow.
Variable W : MainApplication.env.
Variable O : ConfigurationDialog.os.
Variable tcl_string : json -> string.
Variable screenshot : ScreenCapturer.region -> result image.

(** Events other than the two menu commands leave the configuration,
    the file and the texts alone. *)
Lemma step_settings_frame s ev :
  match ev with
  | MenuLanguage _ | MenuConfiguration _ => True
  | _ =>
      config (MainWindow.step W O tcl_string screenshot s ev) = config s
      /\ files (MainWindow.step W O tcl_string screenshot s ev) = files s
      /\ ui_texts (MainWindow.step W O tcl_string screenshot s ev) = ui_texts s
      /\ combobox_values (MainWindow.step W O tcl_string screenshot s ev) = combobox_values s
  end.
Proof.
  destruct ev; cbn [MainWindow.step]; auto;
    unfold in_main_window, app_step;
    try (destruct s as [a c u cv fs dv rt ct ov]; destruct rt; cbn;
         repeat match goal with
                | |- context [if ?b then _ else _] => destruct b
                end; cbn; now auto).
  - (* Press *)
    destruct s as [a c u cv fs dv rt ct [[self|]|]]; cbn; auto.
  - (* Release *)
    destruct (overlay s) as [[self|]|] eqn:Eo.
    + rewrite (on_button_release_effect screenshot _ _ s self Eo).
      destruct s; cbn; auto.
    + unfold on_button_release, bind, get. rewrite Eo. cbn. auto.
    + unfold on_button_release, bind, get. rewrite Eo. cbn. auto.
  - (* CaptureTimer *)
    destruct s as [a c u cv fs dv rt [|t ct] ov]; cbn; auto.
Qed.


End InvariantFacts.

Section InvariantSteps.
Import ConfigurationManager MainWindow.
Variable W : MainApplication.env.
Variable O : ConfigurationDialog.os.
Variable tcl_string : json -> string.
Variable screenshot : ScreenCapturer.region -> result image.





Lemma step_persisted os_name s ev :
  persisted os_name s ->
  persisted os_name (MainWindow.step W O tcl_string screenshot s ev).
Proof.
  intros (d & Hc & Hkeys & Hfile & Hopen).
  assert (Hsaved : forall cfg,
            snd (save_config cfg (files s))
            = {| CONFIG_FILE := Holds cfg;
                 open_for_writing := Ok tt;
                 stdout := stdout (files s) |}).
  { intros cfg. rewrite save_config_spec, Hopen. reflexivity. }
  pose proof (step_settings_frame W O tcl_string screenshot s ev) as Hset.
  destruct ev;
    try (destruct Hset as (Hc' & Hf' & _);
         exists d; rewrite Hc', Hf'; now auto).
  - (* MenuLanguage *)
    cbn [MainWindow.step]. unfold in_main_window.
    destruct (visible s); [|exists d; now auto].
    destruct (texts_for_string lang_code) as (ui & Ht & _).
    rewrite (switch_language_effect (JString lang_code) s d ui Hc Ht).
    cbn [snd]. eexists. cbn [config files]. split; [reflexivity|].
    rewrite Hsaved. cbn. repeat split.
    intros k v Hin. apply dict_get_set_present. now apply (Hkeys k v).
  - (* MenuConfiguration *)
    cbn [MainWindow.step]. unfold in_main_window.
    destruct (visible s); [|exists d; now auto].
    destruct (show_configuration_effect W O tcl_string actions s d Hc)
      as (boxes & [(p & _ & H) | H]); cbn zeta in *; rewrite H; cbn [snd].
    + eexists. rewrite Hsaved.
      destruct s as [a c u cv fs dv rt ct ov]. cbn.
      split; [reflexivity|]. repeat split.
      intros k v Hin. apply dict_get_set_present. now apply (Hkeys k v).
    + exists d. destruct s as [a c u cv fs dv rt ct ov]. cbn in *. auto.
Qed.

Lemma run_persisted os_name evs : forall s,
  persisted os_name s ->
  persisted os_name (MainWindow.run W O tcl_string screenshot evs s).
Proof.
  induction evs as [|ev evs IH]; intros s H; cbn; [exact H|].
  apply IH. now apply step_persisted.
Qed.

(** With nothing on screen and no capture scheduled, no event brings
    the window back or changes the captured image. *)
Lemma step_hidden s ev :
  hidden s ->
  hidden (MainWindow.step W O tcl_string screenshot s ev)
  /\ MainApplication.captured_image
       (app (MainWindow.step W O tcl_string screenshot s ev))
     = MainApplication.captured_image (app s).
Proof.
  intros (Hr & Ho & Ht).
  assert (Happ : forall ev0,
            match ev0 with MainApplication.EvCaptured _ => False | _ => True end ->
            hidden (app_step W ev0 s)
            /\ MainApplication.captured_image (app (app_step W ev0 s))
               = MainApplication.captured_image (app s)).
  { intros ev0 Hev. unfold app_step.
    pose proof (proj1 (step_capture W ev0 (app s))) as Hcap.
    destruct s as [a c u cv fs dv rt ct ov]. cbn in *. subst.
    split; [repeat split|]. rewrite Hcap. now destruct ev0. }
  destruct ev; cbn [MainWindow.step]; unfold in_main_window, visible;
    rewrite ?Hr; try (now apply Happ);
    try (split; [repeat split; auto|reflexivity]).
  - destruct (existsb _ _); split; try reflexivity; repeat split; auto.
  - destruct (existsb _ _); split; try reflexivity; repeat split; auto.
  - destruct s as [a c u cv fs dv rt ct ov]. cbn in *. subst. cbn.
    split; [repeat split|reflexivity].
  - unfold on_button_release, bind, get. rewrite Ho. cbn.
    split; [repeat split; auto|reflexivity].
  - destruct s as [a c u cv fs dv rt ct ov]. cbn in *. subst. cbn.
    split; [repeat split|reflexivity].
  - rewrite Ht. split; [repeat split; auto|reflexivity].
Qed.

Lemma run_hidden evs : forall s,
  hidden s ->
  hidden (MainWindow.run W O tcl_string screenshot evs s)
  /\ MainApplication.captured_image
       (app (MainWindow.run W O tcl_string screenshot evs s))
     = MainApplication.captured_image (app s).
Proof.
  induction evs as [|ev evs IH]; intros s H; cbn; [auto|].
  destruct (step_hidden s ev H) as (H1 & H2).
  destruct (IH _ H1) as (H3 & H4). split; [exact H3|].
  etransitivity; [exact H4|exact H2].
Qed.

Lemma run_app evs1 evs2 s :
  MainWindow.run W O tcl_string screenshot (evs1 ++ evs2) s
  = MainWindow.run W O tcl_string screenshot evs2
      (MainWindow.run W O tcl_string screenshot evs1 s).
Proof. unfold MainWindow.run. apply fold_left_app. Qed.

(** Pointer movements on an open overlay keep it open and change
    nothing else. *)
Lemma run_moves moves : forall s capturer,
  overlay s = Some capturer ->
  exists capturer',
    MainWindow.run W O tcl_string screenshot (map move moves) s
    = set_overlay (Some capturer') s.
Proof.
  unfold MainWindow.run.
  induction moves as [|[press [x y]] moves IH]; intros s capturer Ho; cbn.
  - exists capturer. destruct s; cbn in *; now subst.
  - destruct press; cbn [MainWindow.step].
    + unfold on_button_press, modify. cbn [snd]. rewrite Ho.
      match goal with
      | |- context [set_overlay (Some ?c) s] =>
          destruct (IH (set_overlay (Some c) s) c) as (c' & Hc');
            [now destruct s|]; rewrite Hc'; exists c'; now destruct s
      end.
    + apply (IH s capturer Ho).
Qed.

End InvariantSteps.

Section StartFacts.
Import ConfigurationManager MainWindow.

(** What holds of the window [__init__] returns. *)
Lemma init_invariants os_name w s0 :
  fst (__init__ os_name w) = Ok s0 ->
  language_ok s0
  /\ root s0 = shown /\ overlay s0 = None /\ capture_timers s0 = []
  /\ (open_for_writing w = Ok tt -> persisted os_name s0).
Proof.
  intros Hinit.
  destruct (load_config_summary os_name w) as (c & out & Hload & Hc).
  destruct (is_object c) eqn:Eo.
  2:{ destruct (init_on_non_object os_name w c _ Hload Eo) as (e & He).
      rewrite He in Hinit. discriminate. }
  destruct c as [ | | | | | |d']; try discriminate.
  destruct Hc as (Hkeys & Hlang & _).
  match type of Hlang with _ = ?L => remember L as l eqn:El end.
  assert (exists lang, l = Some lang) as (lang & ->).
  { subst l. destruct (CONFIG_FILE w) as [| |[ | | | | | |d]]; eauto.
    destruct (dict_get _ d); eauto. }
  pose proof (init_on_object os_name w d' _ lang Hload Hlang) as H.
  destruct (texts_for lang) as [ui|e] eqn:Hui.
  2:{ rewrite H in Hinit. discriminate. }
  destruct H as (s1 & H1 & Hcfg & Hfiles & Hu & Hcb & Hlo & Hlv & Hinv & Hr & Ho & Ht).
  rewrite H1 in Hinit. cbn in Hinit. inversion Hinit. subst s1.
  pose proof (texts_for_cases _ _ Hui) as Hcases.
  split; [|repeat split; auto].
  - unfold language_ok. rewrite Hcfg, Hu, Hcb, Hlo, Hlv, Hinv.
    repeat split; auto.
    destruct Hcases as [-> | ->]; cbn; auto.
  - intros Hopen. unfold persisted. rewrite Hcfg, Hfiles.
    eexists. split; [reflexivity|].
    rewrite save_config_spec. cbn [open_for_writing]. rewrite Hopen. cbn.
    repeat split.
    intros k v Hin. apply dict_get_set_present. now apply (Hkeys k v).
Qed.

(** A configuration that is persisted is what [load_config] returns. *)
Lemma load_config_persisted os_name s :
  persisted os_name s ->
  load_config os_name (files s) = (Ok (config s), files s).
Proof.
  intros (d & Hc & Hkeys & Hfile & _).
  rewrite (load_config_holds os_name (files s) (config s) Hfile), Hc.
  now rewrite (fill_defaults_complete (DEFAULT_CONFIG os_name) d Hkeys).
Qed.

End StartFacts.

(** X21. Settings survive a restart.  Once the program has started with
    a configuration file it can write, then after any sequence of events
    (captures, jobs, resizes, language switches, configuration dialogs)
    the file holds the configuration in memory: [load_config] would
    return exactly [self.config]. *)
Theorem configuration_survives_restart :
  forall (W : MainApplication.env) (O : ConfigurationDialog.os)
         tcl_string screenshot w s0 evs,
    ConfigurationManager.open_for_writing w = Ok tt ->
    fst (MainWindow.__init__ (MainApplication.os_name W) w) = Ok s0 ->
    let s := MainWindow.run W O tcl_string screenshot evs s0 in
    ConfigurationManager.load_config (MainApplication.os_name W)
      (MainWindow.files s)
    = (Ok (MainWindow.config s), MainWindow.files s).
Proof.
  intros W O tcl_string screenshot w s0 evs Hopen Hinit s.
  apply load_config_persisted. subst s. apply run_persisted.
  now apply (init_invariants _ w s0 Hinit).
Qed.

Lemma configuration_survives_restart_witness :
  let evs := [MainWindow.MenuLanguage "eng";
              MainWindow.MenuConfiguration
                [Dialog.Edit "C:\Tesseract-OCR\tesseract.exe"; Dialog.Save]] in
  exists s0,
    fst (MainWindow.__init__ "nt" sample_files) = Ok s0
    /\ let s := MainWindow.run working_world sample_os (fun _ => ""%string)
                  sample_screen evs s0 in
       ConfigurationManager.load_config "nt" (MainWindow.files s)
       = (Ok (MainWindow.config s), MainWindow.files s).
Proof.
  intros evs. eexists. split; [reflexivity|].
  apply (configuration_survives_restart working_world sample_os
           (fun _ => ""%string) sample_screen sample_files _ evs);
    reflexivity.
Defined.



(** X23. Switching the interface language resets the OCR language.  The
    two tables name the OCR languages differently, so a selection made
    under one interface language is not among the names of the other:
    [switch_language] to the other language selects its first entry,
    and the next OCR job runs in [tur] whatever was selected before.
    Switching to the language already shown keeps the selection. *)
Theorem switch_language_resets_ocr_language :
  forall s lang_code ui,
    MainWindow.language_ok s ->
    MainWindow.texts_for (ConfigurationManager.JString lang_code) = Ok ui ->
    let s' := snd (MainWindow.switch_language
                     (ConfigurationManager.JString lang_code) s) in
    (ui = MainWindow.ui_texts s ->
     MainApplication.language_var (MainWindow.app s')
     = MainApplication.language_var (MainWindow.app s)
     /\ MainApplication.selected_language (MainWindow.app s')
        = MainApplication.selected_language (MainWindow.app s))
    /\ (ui <> MainWindow.ui_texts s ->
        MainApplication.language_var (MainWindow.app s')
        = hd ""%string (MainWindow.ocr_languages ui)
        /\ MainApplication.selected_language (MainWindow.app s') = "tur"%string).
Proof.
  intros s lang_code ui (Hobj & Hui & Hopt & Hcv & Hvar & _) Ht s'.
  destruct (MainWindow.config s) as [ | | | | | |d] eqn:Ec; try discriminate.
  subst s'.
  rewrite (switch_language_effect (ConfigurationManager.JString lang_code)
             s d ui Ec Ht).
  cbn [snd MainWindow.app].
  pose proof (texts_for_cases _ _ Ht) as Hcases.
  destruct s as [a c u cv fs dv rt ct ov].
  destruct a as [cap tk orig rj lv lo cfgp ls li ib tb nw tms nid pend ts clip msgs].
  cbn in Hui, Hopt, Hvar, Ec |- *. subst lo.
  unfold MainApplication.selected_language. cbn.
  destruct Hcases as [-> | ->]; destruct Hui as [-> | ->];
    cbn in Hvar; destruct Hvar as [<- | [<- | []]];
    (split; [intros He | intros Hne]);
    try discriminate; try (now destruct Hne);
    split; reflexivity.
Qed.

Lemma switch_language_resets_ocr_language_witness :
  let s := MainWindow.step working_world sample_os (fun _ => ""%string)
             sample_screen sample_window
             (MainWindow.ChooseOcrLanguage "İngilizce") in
  MainApplication.selected_language (MainWindow.app s) = "eng"%string
  /\ MainApplication.selected_language
       (MainWindow.app
          (snd (MainWindow.switch_language
                  (ConfigurationManager.JString "eng") s)))
     = "tur"%string.
Proof.
  intros s. split; [reflexivity|].
  apply (switch_language_resets_ocr_language s "eng" MainWindow.eng).
  - unfold MainWindow.language_ok. cbn. repeat split; auto.
  - reflexivity.
  - discriminate.
Defined.

(** ** A capture from the button to the callback *)

Section CaptureFacts.
Import MainWindow.
Variable W : MainApplication.env.
Variable O : ConfigurationDialog.os.
Variable tcl_string : ConfigurationManager.json -> string.
Variable screenshot : ScreenCapturer.region -> result image.

(** The "+ New" button and the timer it sets: the window is withdrawn
    and an overlay without an anchor is open. *)
Lemma run_new s :
  root s = shown ->
  capture_timers s = [] ->
  MainWindow.run W O tcl_string screenshot [ClickNew; CaptureTimer] s
  = set_overlay (Some None) (set_root withdrawn s).
Proof.
  intros Hr Ht. destruct s as [a c u cv fs dv rt ct ov]. cbn in Hr, Ht. subst.
  cbn. unfold in_main_window. cbn. unfold start_capture, bind, get, modify. cbn.
  destruct (0 <? dv); reflexivity.
Qed.

Lemma run_drags drags s :
  MainWindow.run W O tcl_string screenshot
    (map (fun xy : Z * Z => Drag (fst xy) (snd xy)) drags) s = s.
Proof. induction drags as [|xy drags IH]; cbn; auto. Qed.

End CaptureFacts.

(** X24. Escape on the overlay loses the main window.  [start_capture]
    withdraws it and only [process_captured_image] shows it again;
    [cancel_capture] destroys the overlay and calls nothing.  So after
    "+ New", any pointer movements and Escape, the main window is
    withdrawn, no overlay is open and no capture is scheduled, and
    nothing that can still happen (timers, workers, geometry changes)
    brings the window back or changes the captured image. *)
Theorem escape_leaves_window_withdrawn :
  forall (W : MainApplication.env) (O : ConfigurationDialog.os)
         tcl_string screenshot s moves later,
    MainWindow.root s = MainWindow.shown ->
    MainWindow.capture_timers s = [] ->
    let s' := MainWindow.run W O tcl_string screenshot
                ([MainWindow.ClickNew; MainWindow.CaptureTimer]
                 ++ map MainWindow.move moves
                 ++ [MainWindow.Escape] ++ later) s in
    MainWindow.root s' = MainWindow.withdrawn
    /\ MainWindow.overlay s' = None
    /\ MainWindow.capture_timers s' = []
    /\ MainApplication.captured_image (MainWindow.app s')
       = MainApplication.captured_image (MainWindow.app s).
Proof.
  intros W O tcl_string screenshot s moves later Hr Ht s'. subst s'.
  rewrite !run_app, (run_new W O tcl_string screenshot s Hr Ht).
  destruct (run_moves W O tcl_string screenshot moves
              (MainWindow.set_overlay (Some None)
                 (MainWindow.set_root MainWindow.withdrawn s)) None)
    as (c & Hc); [now destruct s|].
  rewrite Hc.
  match goal with
  | |- context [MainWindow.run _ _ _ _ later ?s1] =>
      assert (Hh : MainWindow.hidden s1
                   /\ MainApplication.captured_image (MainWindow.app s1)
                      = MainApplication.captured_image (MainWindow.app s))
        by (destruct s; cbn in *; subst; repeat split);
      destruct Hh as (Hh & Hcap);
      destruct (run_hidden W O tcl_string screenshot later s1 Hh)
        as ((H1 & H2 & H3) & H4)
  end.
  repeat split; auto. now rewrite H4.
Qed.

Lemma escape_leaves_window_withdrawn_witness :
  let later := [MainWindow.ClickNew; MainWindow.Worker;
                MainWindow.Configure 500 (800, 600); MainWindow.Idle 1000;
                MainWindow.Release 5 5; MainWindow.CaptureTimer] in
  let s' := MainWindow.run working_world sample_os (fun _ => ""%string)
              sample_screen
              ([MainWindow.ClickNew; MainWindow.CaptureTimer]
               ++ map MainWindow.move [(true, (10, 10)); (false, (40, 30))]
               ++ [MainWindow.Escape] ++ later) sample_window in
  MainWindow.root s' = MainWindow.withdrawn
  /\ MainWindow.overlay s' = None
  /\ MainWindow.capture_timers s' = []
  /\ MainApplication.captured_image (MainWindow.app s')
     = MainApplication.captured_image (MainWindow.app sample_window).
Proof.
  intros later.
  apply (escape_leaves_window_withdrawn working_world sample_os
           (fun _ => ""%string) sample_screen sample_window
           [(true, (10, 10)); (false, (40, 30))] later);
    reflexivity.
Defined.

(** X25. A capture ended by releasing the button comes back.  After
    "+ New", a press at [(ax, ay)], any dragging and a release at
    [(bx, by)], the main window is shown again, the overlay is gone, and
    the application has been handed, through [process_captured_image],
    the grab of the rectangle between the two points when that
    rectangle has positive width and height and the grab succeeded, and
    [None] otherwise.  Nothing else of the window has changed. *)
Theorem release_delivers_selection :
  forall (W : MainApplication.env) (O : ConfigurationDialog.os)
         tcl_string screenshot s ax ay drags bx by',
    MainWindow.root s = MainWindow.shown ->
    MainWindow.capture_timers s = [] ->
    let width := Z.abs (bx - ax) in
    let height := Z.abs (by' - ay) in
    let captured :=
      if (0 <? width) && (0 <? height) then
        match screenshot (Z.min ax bx, Z.min ay by', width, height) with
        | Ok img => Some img
        | Raise _ => None
        end
      else None in
    MainWindow.run W O tcl_string screenshot
      ([MainWindow.ClickNew; MainWindow.CaptureTimer; MainWindow.Press ax ay]
       ++ map (fun xy : Z * Z => MainWindow.Drag (fst xy) (snd xy)) drags
       ++ [MainWindow.Release bx by']) s
    = MainWindow.set_overlay None
        (MainWindow.set_app
           (snd (MainApplication.process_captured_image captured
                   (MainWindow.app s)))
           s).
Proof.
  intros W O tcl_string screenshot s ax ay drags bx by' Hr Ht width height captured.
  change ([MainWindow.ClickNew; MainWindow.CaptureTimer; MainWindow.Press ax ay]
          ++ map (fun xy : Z * Z => MainWindow.Drag (fst xy) (snd xy)) drags
          ++ [MainWindow.Release bx by'])
    with ([MainWindow.ClickNew; MainWindow.CaptureTimer]
          ++ [MainWindow.Press ax ay]
          ++ map (fun xy : Z * Z => MainWindow.Drag (fst xy) (snd xy)) drags
          ++ [MainWindow.Release bx by']).
  rewrite !run_app, (run_new W O tcl_string screenshot s Hr Ht), run_drags.
  cbn [MainWindow.run fold_left MainWindow.step].
  set (self := {| ScreenCapturer.start_x := ax; ScreenCapturer.start_y := ay;
                  ScreenCapturer.captured_image := None |}).
  assert (Hs1 : snd (MainWindow.on_button_press ax ay
                       (MainWindow.set_overlay (Some None)
                          (MainWindow.set_root MainWindow.withdrawn s)))
                = MainWindow.set_overlay (Some (Some self))
                    (MainWindow.set_root MainWindow.withdrawn s))
    by (destruct s; reflexivity).
  rewrite Hs1.
  rewrite (on_button_release_effect screenshot bx by' _ self)
    by (destruct s; reflexivity).
  cbn [snd].
  assert (Hcap : ScreenCapturer.captured_image
                   (fst (ScreenCapturer.on_button_release screenshot self bx by'))
                 = captured).
  { unfold ScreenCapturer.on_button_release, ScreenCapturer.selection_rectangle.
    subst self captured width height. cbn.
    replace (Z.max ax bx - Z.min ax bx) with (Z.abs (bx - ax)) by lia.
    replace (Z.max ay by' - Z.min ay by') with (Z.abs (by' - ay)) by lia.
    destruct ((0 <? Z.abs (bx - ax)) && (0 <? Z.abs (by' - ay))); [|reflexivity].
    destruct (screenshot _); reflexivity. }
  rewrite Hcap. destruct s as [a c u cv fs dv rt ct ov]. cbn in *. now subst.
Qed.

Lemma release_delivers_selection_witness :
  MainWindow.run working_world sample_os (fun _ => ""%string) sample_screen
    ([MainWindow.ClickNew; MainWindow.CaptureTimer; MainWindow.Press 40 30]
     ++ map (fun xy : Z * Z => MainWindow.Drag (fst xy) (snd xy)) [(20, 20)]
     ++ [MainWindow.Release 10 10]) sample_window
  = MainWindow.set_overlay None
      (MainWindow.set_app
         (snd (MainApplication.process_captured_image
                 (Some (Bitmap 0 RGB (30, 20)))
                 (MainWindow.app sample_window)))
         sample_window).
Proof.
  apply (release_delivers_selection working_world sample_os
           (fun _ => ""%string) sample_screen sample_window 40 30 [(20, 20)]
           10 10);
    reflexivity.
Defined.
